(** * local_rag_ollama: the HTTP routes of [api.py] and the core contracts

    The routes of [api.py] are embedded as functions in a state-and-exception
    monad.  Everything the routes import from the repository's [core] module
    is a field of the record [Core]; the operating system's files are a finite
    map from resolved paths to nodes.  The contracts of [core] that the
    specification gives (chunking, retrieval) are modelled in [CoreSpec]. *)

From Stdlib Require Import ZArith QArith Lia List Ascii String Bool.
From stdpp Require Import base tactics option list sorting strings pretty gmap.

Local Open Scope Z_scope.
Local Open Scope stdpp_scope.

(** ** Python strings

    A Python [str] is a [string]; a character is a code point below 256. *)
Module Py.

Definition chars (s : string) : list ascii := list_ascii_of_string s.
Definition of_chars (l : list ascii) : string := string_of_list_ascii l.

Definition code (c : ascii) : Z := Z.of_N (N_of_ascii c).

(** [str.isspace] on one code point below 256. *)
Definition is_space (c : ascii) : bool :=
  let n := code c in
  ((9 <=? n) && (n <=? 13)) || ((28 <=? n) && (n <=? 32))
  || (n =? 133) || (n =? 160).

Fixpoint lstrip (l : list ascii) : list ascii :=
  match l with
  | c :: l' => if is_space c then lstrip l' else l
  | [] => []
  end.

Definition rstrip (l : list ascii) : list ascii := rev (lstrip (rev l)).

(** [s.strip()] *)
Definition strip (s : string) : string := of_chars (rstrip (lstrip (chars s))).

(** [str.lower] on one code point below 256. *)
Definition lower_char (c : ascii) : ascii :=
  let n := code c in
  if ((65 <=? n) && (n <=? 90))
     || ((192 <=? n) && (n <=? 222) && negb (n =? 215))
  then ascii_of_N (Z.to_N (n + 32)) else c.

(** [s.lower()] *)
Definition lower (s : string) : string := of_chars (map lower_char (chars s)).

(** [l.rfind(c)] for a one-character needle: the highest index holding [c],
    or [-1]. *)
Fixpoint rfind (c : ascii) (l : list ascii) : Z :=
  match l with
  | [] => -1
  | x :: l' =>
      let r := rfind c l' in
      if 0 <=? r then r + 1 else if Ascii.eqb x c then 0 else -1
  end.

(** The slices [l[i:]] and [l[:i]] for [i >= 0]. *)
Definition slice_from (i : Z) (l : list ascii) : list ascii := drop (Z.to_nat i) l.
Definition slice_to (i : Z) (l : list ascii) : list ascii := take (Z.to_nat i) l.

Definition sep : ascii := "/"%char.
Definition extsep : ascii := "."%char.

(** [posixpath.basename]: [i = p.rfind(sep) + 1; return p[i:]]. *)
Definition basename (p : string) : string :=
  let l := chars p in
  let i := rfind sep l + 1 in
  of_chars (slice_from i l).

(** [genericpath._splitext]: the extension starts at the last dot of the
    last component, unless only dots precede it there. *)
Definition splitext (p : string) : string * string :=
  let l := chars p in
  let sepIndex := rfind sep l in
  let dotIndex := rfind extsep l in
  if sepIndex <? dotIndex then
    let filenameIndex := sepIndex + 1 in
    let before := slice_to (dotIndex - filenameIndex) (slice_from filenameIndex l) in
    if forallb (fun c => Ascii.eqb c extsep) before
    then (p, "")
    else (of_chars (slice_to dotIndex l), of_chars (slice_from dotIndex l))
  else (p, "").

Definition startswith_sep (s : string) : bool :=
  match s with String c _ => Ascii.eqb c sep | EmptyString => false end.

Definition endswith_sep (s : string) : bool :=
  match rev (chars s) with c :: _ => Ascii.eqb c sep | [] => false end.

(** [posixpath.join(a, b)] *)
Definition join (a b : string) : string :=
  if startswith_sep b then b
  else if String.eqb a "" || endswith_sep a then a +:+ b
  else a +:+ String sep b.

End Py.

(** ** Exceptions and the monad of the routes *)

(** An instance of a subclass of Python's [Exception] other than FastAPI's
    [HTTPException]: its class name and what [str(e)] returns. *)
Record exn := Exn { exn_class : string; exn_str : string }.

(** What a route raises: an [HTTPException], which FastAPI renders as a
    response with that status and detail, or any other exception. *)
Inductive failure :=
| HTTPException (status_code : Z) (detail : string)
| Raised (e : exn).

Inductive result (E A : Type) :=
| Ok (a : A)
| Err (e : E).
Arguments Ok {E A} a.
Arguments Err {E A} e.

(** A computation over a state [S] that returns or raises; the state it has
    reached is kept in both cases. *)
Definition M (S A : Type) : Type := S -> result failure A * S.

Definition ret {S A} (a : A) : M S A := fun s => (Ok a, s).

Definition raise {S A} (f : failure) : M S A := fun s => (Err f, s).

Definition bind {S A B} (c : M S A) (k : A -> M S B) : M S B :=
  fun s => match c s with
           | (Ok a, s') => k a s'
           | (Err f, s') => (Err f, s')
           end.

(** [try: body except ...: handler] *)
Definition try_except {S A} (body : M S A) (handler : failure -> M S A) : M S A :=
  fun s => match body s with
           | (Ok a, s') => (Ok a, s')
           | (Err f, s') => handler f s'
           end.

(** A call into code that raises ordinary exceptions. *)
Definition call {S A} (f : S -> result exn A * S) : M S A :=
  fun s => match f s with
           | (Ok a, s') => (Ok a, s')
           | (Err e, s') => (Err (Raised e), s')
           end.

(** A value or an ordinary exception, without effect on the state. *)
Definition lift {S A} (r : result exn A) : M S A := call (fun s => (r, s)).

#[global] Instance M_ret {S} : MRet (M S) := @ret S.
#[global] Instance M_bind {S} : MBind (M S) := fun A B k c => bind c k.

(** ** JSON payloads *)

Inductive pyfloat :=
| FNan
| FInf (negative : bool)
| FFin (q : Q).

#[warnings="-register-all"] Inductive json :=
| JNull
| JBool (b : bool)
| JInt (z : Z)
| JFloat (f : pyfloat)
| JStr (s : string)
| JList (l : list json)
| JDict (d : list (string * json)).

(** Python truth value of a decoded JSON value. *)
Definition truthy (v : json) : bool :=
  match v with
  | JNull => false
  | JBool b => b
  | JInt z => negb (z =? 0)
  | JFloat FNan => true
  | JFloat (FInf _) => true
  | JFloat (FFin q) => negb (Qnum q =? 0)
  | JStr s => negb (String.eqb s "")
  | JList l => match l with [] => false | _ => true end
  | JDict d => match d with [] => false | _ => true end
  end.

(** [payload.get(key) or default] *)
Definition get_or (payload : gmap string json) (key : string) (default : json) : json :=
  match payload !! key with
  | Some v => if truthy v then v else default
  | None => default
  end.

Definition type_name (v : json) : string :=
  match v with
  | JNull => "NoneType"
  | JBool _ => "bool"
  | JInt _ => "int"
  | JFloat _ => "float"
  | JStr _ => "str"
  | JList _ => "list"
  | JDict _ => "dict"
  end.

(** [v.strip()]: only a [str] has the method. *)
Definition py_strip (v : json) : result exn string :=
  match v with
  | JStr s => Ok (Py.strip s)
  | _ => Err (Exn "AttributeError"
                ("'" +:+ type_name v +:+ "' object has no attribute 'strip'"))
  end.

(** [int(v)]; [int_of_str] is [int] on a [str]. *)
Definition py_int (int_of_str : string -> result exn Z) (v : json) : result exn Z :=
  match v with
  | JInt z => Ok z
  | JBool b => Ok (if b then 1 else 0)
  | JFloat (FFin q) => Ok (Z.quot (Qnum q) (Z.pos (Qden q)))
  | JFloat FNan => Err (Exn "ValueError" "cannot convert float NaN to integer")
  | JFloat (FInf _) => Err (Exn "OverflowError" "cannot convert float infinity to integer")
  | JStr s => int_of_str s
  | _ => Err (Exn "TypeError"
                ("int() argument must be a string, a bytes-like object or a real number, not '"
                 +:+ type_name v +:+ "'"))
  end.

(** ** What the routes take from outside [api.py] *)

(** The constants and functions of the [core] module that [api.py] uses, over
    a state [W] of everything they can read and change (the loaded index, the
    model server, the clock), together with the wall clock and [int] on
    strings.  [Hit] is an element of what [core.retrieve] returns, [Stats]
    what [core.build_index_from_data] returns; [elapsed_ms t0 t1] stands for
    [int((t1 - t0) * 1000)].  [core] is the library under the routes and does
    not raise FastAPI's [HTTPException]: its functions return or raise an
    [exn]. *)
Record Core (W Hit Stats Time : Type) := {
  DATA_DIR : string;
  ARTIFACTS_DIR : string;
  ALLOWED_EXTS : gset string;
  TOP_K_DEFAULT : Z;
  LLM_MODEL : string;
  EMB_MODEL : string;
  SYSTEM_PROMPT_RAG : string;
  SYSTEM_PROMPT_BARE : string;
  retrieve : string -> Z -> W -> result exn (list Hit) * W;
  build_context : list Hit -> W -> result exn string * W;
  ollama_chat : string -> string -> W -> result exn string * W;
  build_index_from_data : string -> Z -> Z -> string -> W -> result exn Stats * W;
  time_time : W -> Time * W;
  elapsed_ms : Time -> Time -> Z;
  int_of_str : string -> result exn Z;
}.
Arguments DATA_DIR {W Hit Stats Time} _.
Arguments ARTIFACTS_DIR {W Hit Stats Time} _.
Arguments ALLOWED_EXTS {W Hit Stats Time} _.
Arguments TOP_K_DEFAULT {W Hit Stats Time} _.
Arguments LLM_MODEL {W Hit Stats Time} _.
Arguments EMB_MODEL {W Hit Stats Time} _.
Arguments SYSTEM_PROMPT_RAG {W Hit Stats Time} _.
Arguments SYSTEM_PROMPT_BARE {W Hit Stats Time} _.
Arguments retrieve {W Hit Stats Time} _ _ _ _.
Arguments build_context {W Hit Stats Time} _ _ _.
Arguments ollama_chat {W Hit Stats Time} _ _ _ _.
Arguments build_index_from_data {W Hit Stats Time} _ _ _ _ _ _.
Arguments time_time {W Hit Stats Time} _ _.
Arguments elapsed_ms {W Hit Stats Time} _ _ _.
Arguments int_of_str {W Hit Stats Time} _ _.

(** ** The routes [/api/build] and [/api/query] *)

Record build_response (Stats : Type) := BuildResponse {
  build_ok : bool;
  build_stats : Stats;
  build_ms : Z;
}.
Arguments BuildResponse {Stats} _ _ _.
Arguments build_ok {Stats} _.
Arguments build_stats {Stats} _.
Arguments build_ms {Stats} _.

Record query_response (Hit : Type) := QueryResponse {
  rag_answer : string;
  rag_chunks : list Hit;
  llm_answer : string;
  latency_retrieval : Z;
  latency_rag : Z;
  latency_llm : Z;
  latency_total : Z;
  used_model : string;
  used_embed : string;
  used_top_k : Z;
}.
Arguments QueryResponse {Hit} _ _ _ _ _ _ _ _ _ _.
Arguments rag_answer {Hit} _.
Arguments rag_chunks {Hit} _.
Arguments llm_answer {Hit} _.
Arguments used_top_k {Hit} _.

Definition nl : string := String "010"%char "".

Section Routes.
Context {W Hit Stats Time : Type} (core : Core W Hit Stats Time).

(** [time.time()] *)
Definition now : M W Time :=
  fun w => let '(t, w') := time_time core w in (Ok t, w').

(** [except Exception as e: raise HTTPException(status_code=500, detail=str(e))]
    of [api_build], which has no other clause; an [HTTPException] prints as
    its status and detail. *)
Definition build_handler {A} (f : failure) : M W A :=
  match f with
  | HTTPException status detail =>
      raise (HTTPException 500 (pretty status +:+ ": " +:+ detail))
  | Raised e => raise (HTTPException 500 (exn_str e))
  end.

Definition api_build (chunk_size overlap : Z) (embed_model : string)
  : M W (build_response Stats) :=
  try_except
    (t0 ← now;
     stats ← call (build_index_from_data core (DATA_DIR core) chunk_size overlap
                     embed_model);
     t1 ← now;
     mret (BuildResponse true stats (elapsed_ms core t0 t1)))
    build_handler.

(** [except HTTPException: raise] followed by
    [except Exception as e: raise HTTPException(status_code=500, detail=str(e))]
    of [api_query]. *)
Definition query_handler {A} (f : failure) : M W A :=
  match f with
  | HTTPException _ _ => raise f
  | Raised e => raise (HTTPException 500 (exn_str e))
  end.

Definition api_query (payload : gmap string json) : M W (query_response Hit) :=
  try_except
    (question ← lift (py_strip (get_or payload "question" (JStr "")));
     if String.eqb question "" then
       raise (HTTPException 400 "'question' is required")
     else
       top_k ← lift (py_int (int_of_str core)
                       (get_or payload "top_k" (JInt (TOP_K_DEFAULT core))));
       t0 ← now;
       hits ← call (retrieve core question top_k);
       ctx ← call (build_context core hits);
       t1 ← now;
       let rag_user :=
         "Question:" +:+ nl +:+ question +:+ nl +:+ nl +:+ "Context:" +:+ nl +:+ ctx in
       rag_ans ← call (ollama_chat core (SYSTEM_PROMPT_RAG core) rag_user);
       t2 ← now;
       bare_ans ← call (ollama_chat core (SYSTEM_PROMPT_BARE core) question);
       t3 ← now;
       mret (QueryResponse rag_ans hits bare_ans
               (elapsed_ms core t0 t1) (elapsed_ms core t1 t2)
               (elapsed_ms core t2 t3) (elapsed_ms core t0 t3)
               (LLM_MODEL core) (EMB_MODEL core) top_k))
    query_handler.

End Routes.

(** ** Recording the calls into [core]

    To count and order the calls a route makes, [traced core] is [core] over
    a state that also holds the list of calls made so far, each with its
    arguments and with what it returned or raised. *)

Inductive event (Hit Stats : Type) :=
| ERetrieve (question : string) (top_k : Z) (r : result exn (list Hit))
| EBuildContext (hits : list Hit) (r : result exn string)
| EOllamaChat (system user : string) (r : result exn string)
| EBuildIndex (data_dir : string) (chunk_size overlap : Z) (embed_model : string)
    (r : result exn Stats).
Arguments ERetrieve {Hit Stats} _ _ _.
Arguments EBuildContext {Hit Stats} _ _.
Arguments EOllamaChat {Hit Stats} _ _ _.
Arguments EBuildIndex {Hit Stats} _ _ _ _ _.

Definition logged {W Ev A} (mk : result exn A -> Ev) (f : W -> result exn A * W)
  : W * list Ev -> result exn A * (W * list Ev) :=
  fun s => let '(r, w') := f (fst s) in (r, (w', snd s ++ [mk r])).

Definition traced {W Hit Stats Time} (core : Core W Hit Stats Time)
  : Core (W * list (event Hit Stats)) Hit Stats Time :=
  {| DATA_DIR := DATA_DIR core;
     ARTIFACTS_DIR := ARTIFACTS_DIR core;
     ALLOWED_EXTS := ALLOWED_EXTS core;
     TOP_K_DEFAULT := TOP_K_DEFAULT core;
     LLM_MODEL := LLM_MODEL core;
     EMB_MODEL := EMB_MODEL core;
     SYSTEM_PROMPT_RAG := SYSTEM_PROMPT_RAG core;
     SYSTEM_PROMPT_BARE := SYSTEM_PROMPT_BARE core;
     retrieve q k := logged (ERetrieve q k) (retrieve core q k);
     build_context hits := logged (EBuildContext hits) (build_context core hits);
     ollama_chat sys user := logged (EOllamaChat sys user) (ollama_chat core sys user);
     build_index_from_data d c o m :=
       logged (EBuildIndex d c o m) (build_index_from_data core d c o m);
     time_time s := let '(t, w') := time_time core (fst s) in (t, (w', snd s));
     elapsed_ms := elapsed_ms core;
     int_of_str := int_of_str core |}.

(** The calls to the generation collaborator among the recorded ones. *)
Definition is_chat {Hit Stats} (ev : event Hit Stats) : bool :=
  match ev with EOllamaChat _ _ _ => true | _ => false end.

Definition generation_calls {Hit Stats} (tr : list (event Hit Stats))
  : list (event Hit Stats) := List.filter is_chat tr.

Definition is_retrieve {Hit Stats} (ev : event Hit Stats) : bool :=
  match ev with ERetrieve _ _ _ => true | _ => false end.

(** ** Files

    The file system the routes act on: a finite map from resolved paths (the
    components below the root) to nodes, and the working directory.  There
    are no symbolic links and no permissions.

    The operations walk along a path string as the operating system does
    ([reach]): every directory on the way must be there, so a [..] after a
    missing name fails.  [resolve] is the path a string names by its text
    alone, as [os.path.abspath] gives it; it is where the walk arrives when
    it succeeds, and it names the directories in the properties below.  The
    properties of [clear_data] and [index_page] are stated for directories
    that are [settled]. *)
Module FS.

Inductive node :=
| File (content : list Byte.byte)
| Dir.

#[global] Instance byte_eq_dec : EqDecision Byte.byte := Byte.byte_eq_dec.

#[global] Instance node_eq_dec : EqDecision node.
Proof. solve_decision. Defined.

Record state := State {
  cwd : list string;
  nodes : gmap (list string) node;
}.

(** The pieces of a path string between its separators. *)
Fixpoint split (l : list ascii) : list (list ascii) :=
  match l with
  | [] => [[]]
  | c :: l' =>
      if Ascii.eqb c Py.sep then [] :: split l'
      else match split l' with
           | h :: t => (c :: h) :: t
           | [] => [[c]]
           end
  end.

Definition components (s : string) : list string :=
  map Py.of_chars (split (Py.chars s)).

(** The path string with the given components. *)
Fixpoint unsplit (comps : list string) : string :=
  match comps with
  | [] => ""
  | c :: rest =>
      match rest with
      | [] => c
      | _ => c +:+ String Py.sep (unsplit rest)
      end
  end.

(** Walking one component: empty and [.] stay, [..] goes up. *)
Definition walk (stack : list string) (comp : string) : list string :=
  if String.eqb comp "" || String.eqb comp "." then stack
  else if String.eqb comp ".." then removelast stack
  else stack ++ [comp].

(** The resolved path a path string names, from the text alone, as
    [os.path.abspath] gives it. *)
Definition resolve (st : state) (s : string) : list string :=
  fold_left walk (components s) (if Py.startswith_sep s then [] else cwd st).

Definition os_error {A} (class text path : string) : result failure A :=
  Err (Raised (Exn class (text +:+ ": '" +:+ path +:+ "'"))).

Definition ENOENT {A} := @os_error A "FileNotFoundError" "[Errno 2] No such file or directory".
Definition EEXIST {A} := @os_error A "FileExistsError" "[Errno 17] File exists".
Definition ENOTDIR {A} := @os_error A "NotADirectoryError" "[Errno 20] Not a directory".
Definition EISDIR {A} := @os_error A "IsADirectoryError" "[Errno 21] Is a directory".
Definition EBUSY {A} := @os_error A "OSError" "[Errno 16] Device or resource busy".
Definition EINVAL {A} := @os_error A "OSError" "[Errno 22] Invalid argument".
Definition ENAMETOOLONG {A} := @os_error A "OSError" "[Errno 36] File name too long".
Definition ENOTEMPTY {A} := @os_error A "OSError" "[Errno 39] Directory not empty".

(** The limits of the operating system on the bytes of a name and of a path
    string, the latter with its final NUL. *)
Definition NAME_MAX : Z := 255.
Definition PATH_MAX : Z := 4096.

(** The number of bytes of a string in UTF-8: one for a code point below 128,
    two for the others below 256. *)
Definition byte_length (s : string) : Z :=
  fold_right (fun c n => (if Py.code c <? 128 then 1 else 2) + n) 0 (Py.chars s).

(** The string holds the code point 0, which no path may. *)
Definition has_nul (s : string) : bool :=
  existsb (fun c => Py.code c =? 0) (Py.chars s).

(** The last component of a path string, and the last one that is not
    empty. *)
Definition last_component (s : string) : string :=
  default "" (last (components s)).

Definition last_name (s : string) : string :=
  default "" (last (List.filter (fun c => negb (String.eqb c "")) (components s))).

(** The name a removed directory goes by in the path of a working directory
    that is inside it: with a NUL in front, it is a name that no path string
    can hold. *)
Definition dead (c : string) : string := String "000"%char c.

(** The path of the working directory once the directories from depth [n]
    on have been removed. *)
Definition unlinked (n : nat) (cwd : list string) : list string :=
  take n cwd ++ (dead <$> drop n cwd).

(** The walk of the operating system along the components of the path string
    [s], from the directory [cur]: an empty component is skipped; any other
    is looked up in the directory reached so far, which must be there and be
    a directory, and the name must not be too long.  The path reached by the
    last component need not exist.  The process holds the directory it starts
    from, so that [.] and [..] lead on from it, and from what they lead to,
    even when the directory has been removed: [held] says that the walk is
    still there. *)
Fixpoint reach (st : state) (s : string) (held : bool) (cur : list string)
    (comps : list string) : result failure (list string * bool) :=
  match comps with
  | [] => Ok (cur, held)
  | c :: rest =>
      if String.eqb c "" then reach st s held cur rest
      else if held && (String.eqb c "." || String.eqb c "..") then
        reach st s true (walk cur c) rest
      else match nodes st !! cur with
           | None => ENOENT s
           | Some (File _) => ENOTDIR s
           | Some Dir =>
               if NAME_MAX <? byte_length c then ENAMETOOLONG s
               else reach st s false (walk cur c) rest
           end
  end.

(** What every operation does with its path string first: Python refuses a
    NUL, the operating system an empty or too long string, and then the
    walk starts, at the root for a string that starts with a separator and
    at the working directory for the others. *)
Definition lookup (st : state) (s : string) : result failure (list string * bool) :=
  if has_nul s then Err (Raised (Exn "ValueError" "embedded null byte"))
  else if String.eqb s "" then ENOENT s
  else if PATH_MAX <=? byte_length s then ENAMETOOLONG s
  else reach st s true (if Py.startswith_sep s then [] else cwd st) (components s).

(** The node a walk has arrived at: a held directory is a directory also
    when it has been removed. *)
Definition target (st : state) (at_ : list string * bool) : option node :=
  match nodes st !! at_.1 with
  | Some n => Some n
  | None => if at_.2 then Some Dir else None
  end.

(** [os.stat(s)], when it succeeds: the node the path string leads to; a
    path string that ends in a separator leads to a directory only. *)
Definition stat (st : state) (s : string) : option node :=
  match lookup st s with
  | Ok at_ =>
      match target st at_ with
      | Some (File c) =>
          if String.eqb (last_component s) "" then None else Some (File c)
      | n => n
      end
  | Err _ => None
  end.

(** [os.path.isdir(s)] and [os.path.exists(s)]: they never raise. *)
Definition isdir (s : string) : M state bool :=
  fun st => (Ok (bool_decide (stat st s = Some Dir)), st).

Definition path_exists (s : string) : M state bool :=
  fun st => (Ok (bool_decide (is_Some (stat st s))), st).

(** [shutil.rmtree(s)]: the path string must lead to a directory; all below
    it is removed, and then [os.rmdir(s)] removes the directory itself,
    which fails when the walk along [s] fails by now, when the last name in
    [s] is [.] or [..], and for the root.  A working directory that is
    removed stays the working directory, though no path leads to it any
    more. *)
Definition rmtree (s : string) : M state unit :=
  fun st =>
    match lookup st s with
    | Err f => (Err f, st)
    | Ok at_ =>
        match target st at_ with
        | None => (ENOENT s, st)
        | Some (File _) => (ENOTDIR s, st)
        | Some Dir =>
            let p := at_.1 in
            let inside := bool_decide (p `prefix_of` cwd st) in
            let emptied :=
              State (if inside then unlinked (length p) (cwd st) else cwd st)
                (filter (fun kv => kv.1 = p ∨ ¬ p `prefix_of` kv.1) (nodes st)) in
            match lookup emptied s with
            | Err f => (Err f, emptied)
            | Ok _ =>
                if String.eqb (last_name s) "." then (EINVAL s, emptied)
                else if String.eqb (last_name s) ".." then (ENOTEMPTY s, emptied)
                else
                  match p with
                  | [] => (EBUSY s, emptied)
                  | _ =>
                      (Ok tt,
                       State (if inside then unlinked (length p - 1) (cwd st)
                              else cwd st)
                         (filter (fun kv => ¬ p `prefix_of` kv.1) (nodes st)))
                  end
            end
        end
    end.

(** [os.mkdir(s)]: the walk must succeed and arrive where nothing is. *)
Definition mkdir (s : string) : M state unit :=
  fun st =>
    match lookup st s with
    | Err f => (Err f, st)
    | Ok at_ =>
        match target st at_ with
        | Some _ => (EEXIST s, st)
        | None => (Ok tt, State (cwd st) (<[at_.1 := Dir]> (nodes st)))
        end
    end.

(** [try: mkdir(name) except OSError: if not path.isdir(name): raise]; a
    [ValueError] passes through as well, [isdir] being false for its path
    string. *)
Definition mkdir_exist_ok (s : string) : M state unit :=
  try_except (mkdir s)
    (fun f => b ← isdir s; if b : bool then mret tt else raise f).

Definition is_file_exists (f : failure) : bool :=
  match f with
  | Raised e => String.eqb (exn_class e) "FileExistsError"
  | HTTPException _ _ => false
  end.

(** The path strings [os.makedirs] goes through by [os.path.split], the
    longest first: for every non-empty component, the path string up to it,
    together with that component. *)
Fixpoint stages (rcomps : list string) : list (string * string) :=
  match rcomps with
  | [] => []
  | c :: rpre =>
      if String.eqb c "" then stages rpre
      else (unsplit (rev rcomps), c) :: stages rpre
  end.

(** [os.makedirs(name, exist_ok=True)], given the stages of [name]: when the
    head of [name] is not empty and does not exist it is made first, in the
    same way, a [FileExistsError] of that being passed over; then, unless
    that happened and the tail is [.], the directory is made. *)
Fixpoint makedirs_from (stages : list (string * string)) (name : string)
  : M state unit :=
  match stages with
  | [] => mkdir_exist_ok name
  | (_, tail) :: heads =>
      match heads with
      | [] => mkdir_exist_ok name
      | (head, _) :: _ =>
          b ← path_exists head;
          if b : bool then mkdir_exist_ok name
          else
            _ ← try_except (makedirs_from heads head)
                   (fun f => if is_file_exists f then mret tt else raise f);
            if String.eqb tail "." then mret tt else mkdir_exist_ok name
      end
  end.

Definition makedirs (s : string) : M state unit :=
  makedirs_from (stages (rev (components s))) s.

(** [with open(s, "wb") as out: out.write(content)]: the walk along [s]
    must succeed, and the last component of [s] must be a name; the entry
    of that name is then made a file, or the file there is overwritten,
    unless a directory has the name. *)
Definition write_file (s : string) (content : list Byte.byte) : M state unit :=
  fun st =>
    match lookup st s with
    | Err f => (Err f, st)
    | Ok at_ =>
        let named :=
          negb (String.eqb (last_component s) "")
          && negb (String.eqb (last_component s) ".")
          && negb (String.eqb (last_component s) "..") in
        if named then
          match target st at_ with
          | Some Dir => (EISDIR s, st)
          | _ => (Ok tt, State (cwd st) (<[at_.1 := File content]> (nodes st)))
          end
        else (EISDIR s, st)
    end.

(** A name of an entry: not empty, neither [.] nor [..], and not too long. *)
Definition real_name (c : string) : bool :=
  negb (String.eqb c "") && negb (String.eqb c ".") && negb (String.eqb c "..")
  && (byte_length c <=? NAME_MAX).

(** A plain path string: names of entries with one separator between them,
    after a separator at the start or not, without NUL and not too long as a
    whole. *)
Definition plain (s : string) : bool :=
  negb (has_nul s) && (byte_length s <? PATH_MAX)
  && match components s with
     | [] => false
     | c :: rest =>
         (if String.eqb c "" then match rest with [] => false | _ => true end
          else real_name c)
         && forallb real_name rest
     end.

(** The directory a path string names is settled: the string is plain, and
    the working directory is neither the named directory nor inside it. *)
Definition settled (st : state) (s : string) : Prop :=
  plain s = true ∧ ¬ resolve st s `prefix_of` cwd st.

(** Every node but the root lies in a directory. *)
Definition wf (st : state) : Prop :=
  nodes st !! [] = Some Dir ∧
  ∀ p name n, nodes st !! (p ++ [name]) = Some n → nodes st !! p = Some Dir.

(** The same as a check that computes. *)
Definition wfb (st : state) : bool :=
  bool_decide (nodes st !! [] = Some Dir)
  && forallb (fun kv => match rev kv.1 with
                        | [] => true
                        | _ :: rparent =>
                            bool_decide (nodes st !! rev rparent = Some Dir)
                        end)
       (map_to_list (nodes st)).

(** The directory at [p] exists and holds nothing. *)
Definition empty_dir (st : state) (p : list string) : Prop :=
  nodes st !! p = Some Dir ∧
  ∀ q, p `prefix_of` q → q ≠ p → nodes st !! q = None.

End FS.

(** ** The routes [/api/data] and [/api/upload] *)

Record upload_file := UploadFile {
  filename : option string;
  content : list Byte.byte;
}.

Record saved_file := SavedFile {
  saved_name : string;
  saved_bytes : Z;
}.

Record upload_response := UploadResponse {
  saved : list saved_file;
  data_dir : string;
}.

Record clear_response := ClearResponse { cleared : bool }.

Section FileRoutes.
Context {W Hit Stats Time : Type} (core : Core W Hit Stats Time).

Definition clear_data : M FS.state clear_response :=
  b ← FS.isdir (DATA_DIR core);
  _ ← (if b : bool then FS.rmtree (DATA_DIR core) else mret tt);
  _ ← FS.makedirs (DATA_DIR core);
  b ← FS.isdir (ARTIFACTS_DIR core);
  _ ← (if b : bool then FS.rmtree (ARTIFACTS_DIR core) else mret tt);
  _ ← FS.makedirs (ARTIFACTS_DIR core);
  mret (ClearResponse true).

(** [name] and [ext] of the loop body. *)
Definition upload_name (uf : upload_file) : string :=
  Py.basename (default "" (filename uf)).

Definition upload_ext (uf : upload_file) : string :=
  Py.lower (snd (Py.splitext (upload_name uf))).

(** The negation of [not name or ext not in core.ALLOWED_EXTS]. *)
Definition accepted (uf : upload_file) : bool :=
  negb (String.eqb (upload_name uf) "")
  && bool_decide (upload_ext uf ∈ ALLOWED_EXTS core).

(** The [for uf in files] loop, with [saved] as it stands. *)
Fixpoint upload_loop (files : list upload_file) (saved : list saved_file)
  : M FS.state (list saved_file) :=
  match files with
  | [] => mret saved
  | uf :: rest =>
      let name := upload_name uf in
      if negb (accepted uf) then upload_loop rest saved
      else
        let dest := Py.join (DATA_DIR core) name in
        _ ← FS.write_file dest (content uf);
        upload_loop rest
          (saved ++ [SavedFile name (Z.of_nat (length (content uf)))])
  end.

Definition upload (files : list upload_file) : M FS.state upload_response :=
  saved ← upload_loop files [];
  match saved with
  | [] =>
      raise (HTTPException 400
               "No files saved (empty selection or unsupported extensions)")
  | _ => mret (UploadResponse saved (DATA_DIR core))
  end.

End FileRoutes.

(** ** The contracts of [core] given by the specification

    [core.py] is not among the sources; its chunker and retriever are
    modelled here from the words of the specification. *)
Module CoreSpec.

(** Modelled from the spec: the error taxonomy of [core] (section 7), which
    is missing from the sources. *)
Inductive error :=
| InvalidConfig
| EmbeddingBackendError
| IndexCorrupt
| EmptyIndexError
| GenerationBackendError.



(** Modelled from the spec: a chunk as the chunker of the missing [core]
    produces it (section 3): its character offset range, its text and its
    sequence index. *)
Record Chunk := MkChunk {
  chunk_start : nat;
  chunk_stop : nat;
  chunk_text : string;
  chunk_seq : nat;
}.

(** Modelled from the spec: the sliding window of the chunker of the missing
    [core] (section 4.1): a window of length [size] from [start], cut at the
    end [n] of the text, then the same from [start + step], until a window
    reaches the end of the text.  [fuel] bounds the number of windows. *)
Fixpoint windows (fuel n size step start : nat) : list (nat * nat) :=
  match fuel with
  | O => []
  | S fuel' =>
      (start, Nat.min (start + size) n)
      :: (if (n <=? start + size)%nat then []
          else windows fuel' n size step (start + step))
  end.

(** The text in a window. *)
Definition chunk_text_at (text : string) (w : nat * nat) : string :=
  String.substring w.1 (w.2 - w.1) text.

(** Modelled from the spec: [chunk(text, chunk_size, overlap)] of the missing
    [core] (section 4.1): both numbers are positive and [overlap <
    chunk_size], else [InvalidConfig]; the window advances by [chunk_size -
    overlap]. *)
Definition chunk (text : string) (chunk_size overlap : Z)
  : result error (list Chunk) :=
  if (0 <? chunk_size) && (0 <? overlap) && (overlap <? chunk_size) then
    let n := String.length text in
    let size := Z.to_nat chunk_size in
    let step := Z.to_nat (chunk_size - overlap) in
    Ok (imap (fun i w => MkChunk w.1 w.2 (chunk_text_at text w) i)
          (windows (S n) n size step 0))
  else Err InvalidConfig.

Definition offsets (cs : list Chunk) : list (nat * nat) :=
  (fun c => (chunk_start c, chunk_stop c)) <$> cs.

(** Modelled from the spec: the metadata record of a chunk in the index of
    the missing [core] (section 3). *)
Record metadata := Metadata {
  source : string;
  char_start : nat;
  char_stop : nat;
  text : string;
}.

Section Retriever.
(** Embedding vectors, similarity scores, the similarity of two vectors
    and the order of scores. *)
Context {Vec Score : Type}.
Context (similarity : Vec -> Vec -> Score) (leb : Score -> Score -> bool).

(** A stored chunk with its row in the index and its score for the query. *)
Record scored := Scored {
  row : nat;
  meta : metadata;
  score : Score;
}.

(** Insertion into a list that is in descending order of score: before
    the first element that does not score higher. *)
Fixpoint insert_desc (x : scored) (l : list scored) : list scored :=
  match l with
  | [] => [x]
  | y :: l' =>
      if leb (score y) (score x) then x :: y :: l'
      else y :: insert_desc x l'
  end.

(** Stable sort in descending order of score. *)
Definition sort_desc (l : list scored) : list scored :=
  foldr insert_desc [] l.

Definition score_all (index : list (metadata * Vec)) (query_vector : Vec)
  : list scored :=
  imap (fun i e => Scored i e.1 (similarity query_vector e.2)) index.

(** Modelled from the spec: [retrieve(query_vector, top_k)] of the missing
    [core] (section 4.4), for a positive [top_k]: [EmptyIndexError] if no
    index is loaded; else the cosine similarity of the query to every
    stored vector, a stable sort in descending order of score, and the
    first [top_k] of them, [top_k] clamped to the size of the index. *)
Definition retrieve (loaded : option (list (metadata * Vec)))
    (query_vector : Vec) (top_k : positive)
  : result error (list (metadata * Score)) :=
  match loaded with
  | None => Err EmptyIndexError
  | Some index =>
      let k := Nat.min (Pos.to_nat top_k) (length index) in
      Ok ((fun h => (meta h, score h))
            <$> take k (sort_desc (score_all index query_vector)))
  end.

End Retriever.

End CoreSpec.



(** ** Vocabulary of the properties *)

(** The question is absent, null, or a string of white space only. *)
Definition blank_question (payload : gmap string json) : Prop :=
  payload !! "question" = None
  ∨ payload !! "question" = Some JNull
  ∨ ∃ s, payload !! "question" = Some (JStr s)
         ∧ Forall (fun c => Py.is_space c = true) (Py.chars s).

(** The value of the [top_k] field counts as missing. *)
Definition top_k_missing (payload : gmap string json) : Prop :=
  payload !! "top_k" = None
  ∨ payload !! "top_k" = Some JNull
  ∨ payload !! "top_k" = Some (JInt 0).

Section QueryRuns.
Context {W Hit Stats Time : Type} (core : Core W Hit Stats Time).

(** The question the query is about, and the number of chunks it asks for. *)
Definition asked (payload : gmap string json) (q : string) : Prop :=
  py_strip (get_or payload "question" (JStr "")) = Ok q ∧ q ≠ "".

Definition wanted (payload : gmap string json) (k : Z) : Prop :=
  py_int (int_of_str core) (get_or payload "top_k" (JInt (TOP_K_DEFAULT core)))
  = Ok k.

(** The user prompt of the call with context. *)
Definition rag_prompt (question ctx : string) : string :=
  "Question:" +:+ nl +:+ question +:+ nl +:+ nl +:+ "Context:" +:+ nl +:+ ctx.

(** The ways a query can go: what the caller gets, and the calls made. *)
Inductive query_run (payload : gmap string json)
  : result failure (query_response Hit) → list (event Hit Stats) → Prop :=
| QRefused :
    py_strip (get_or payload "question" (JStr "")) = Ok "" →
    query_run payload (Err (HTTPException 400 "'question' is required")) []
| QQuestionError e :
    py_strip (get_or payload "question" (JStr "")) = Err e →
    query_run payload (Err (HTTPException 500 (exn_str e))) []
| QTopKError q e :
    asked payload q →
    py_int (int_of_str core) (get_or payload "top_k" (JInt (TOP_K_DEFAULT core)))
    = Err e →
    query_run payload (Err (HTTPException 500 (exn_str e))) []
| QRetrieveError q k e :
    asked payload q → wanted payload k →
    query_run payload (Err (HTTPException 500 (exn_str e)))
      [ERetrieve q k (Err e)]
| QContextError q k hits e :
    asked payload q → wanted payload k →
    query_run payload (Err (HTTPException 500 (exn_str e)))
      [ERetrieve q k (Ok hits); EBuildContext hits (Err e)]
| QRagError q k hits ctx e :
    asked payload q → wanted payload k →
    query_run payload (Err (HTTPException 500 (exn_str e)))
      [ERetrieve q k (Ok hits); EBuildContext hits (Ok ctx);
       EOllamaChat (SYSTEM_PROMPT_RAG core) (rag_prompt q ctx) (Err e)]
| QBareError q k hits ctx rag_ans e :
    asked payload q → wanted payload k →
    query_run payload (Err (HTTPException 500 (exn_str e)))
      [ERetrieve q k (Ok hits); EBuildContext hits (Ok ctx);
       EOllamaChat (SYSTEM_PROMPT_RAG core) (rag_prompt q ctx) (Ok rag_ans);
       EOllamaChat (SYSTEM_PROMPT_BARE core) q (Err e)]
| QAnswered q ctx resp :
    asked payload q → wanted payload (used_top_k resp) →
    query_run payload (Ok resp)
      [ERetrieve q (used_top_k resp) (Ok (rag_chunks resp));
       EBuildContext (rag_chunks resp) (Ok ctx);
       EOllamaChat (SYSTEM_PROMPT_RAG core) (rag_prompt q ctx)
         (Ok (rag_answer resp));
       EOllamaChat (SYSTEM_PROMPT_BARE core) q (Ok (llm_answer resp))].

End QueryRuns.

(** [st'] is [st] with directories added at some of the paths down to [p]. *)
Definition grown (p : list string) (st st' : FS.state) : Prop :=
  FS.cwd st' = FS.cwd st
  ∧ ∀ q, FS.nodes st' !! q = FS.nodes st !! q
         ∨ (q `prefix_of` p ∧ FS.nodes st !! q = None
            ∧ FS.nodes st' !! q = Some FS.Dir).

(** A plain name: not empty, no separator, neither [.] nor [..]. *)
Definition plain_name (name : string) : Prop :=
  (Py.sep ∉ Py.chars name) ∧ name ≠ "" ∧ name ≠ "." ∧ name ≠ "..".

(** The entry of [saved] for an uploaded file. *)
Definition saved_entry (uf : upload_file) : saved_file :=
  SavedFile (upload_name uf) (Z.of_nat (length (content uf))).

Section RetrieverOrder.
Context {Score : Type} (leb : Score -> Score -> bool).

(** [x] may stand before [y] in the result: it scores no lower, and on a tie
    it has the earlier row. *)
Definition before (x y : CoreSpec.scored) : Prop :=
  leb (CoreSpec.score y) (CoreSpec.score x) = true
  ∧ (leb (CoreSpec.score x) (CoreSpec.score y) = true →
     (CoreSpec.row x < CoreSpec.row y)%nat).

Definition row_lt (x y : CoreSpec.scored (Score:=Score)) : Prop :=
  (CoreSpec.row x < CoreSpec.row y)%nat.

End RetrieverOrder.

(** ** The route [/] *)

(** What [index_page] returns: an [HTMLResponse] with its body and status, or
    a [FileResponse] for a path. *)
Inductive page :=
| HTMLResponse (body : string) (status_code : Z)
| FileResponse (path : string).

Definition ui_not_found : string :=
  "<h3>UI not found</h3><p>Expected: static/index.html next to api.py.</p>".

(** [index_page], with [core.STATIC_DIR] as a parameter. *)
Definition index_page (STATIC_DIR : string) : M FS.state page :=
  let html_path := Py.join STATIC_DIR "index.html" in
  b ← FS.path_exists html_path;
  if negb b then mret (HTMLResponse ui_not_found 404)
  else mret (FileResponse html_path).

(** [dest] of the loop body of [upload]. *)
Definition upload_dest {W Hit Stats Time : Type} (core : Core W Hit Stats Time)
    (uf : upload_file) : string :=
  Py.join (DATA_DIR core) (upload_name uf).

(** The accepted files of an upload that are written to the path [p]. *)
Definition written_to {W Hit Stats Time : Type} (core : Core W Hit Stats Time)
    (st : FS.state) (p : list string) (files : list upload_file)
  : list upload_file :=
  List.filter
    (fun uf => accepted core uf
               && bool_decide (FS.resolve st (upload_dest core uf) = p))
    files.

(** What a recorded call raised, if it raised. *)
Definition event_error {Hit Stats} (ev : event Hit Stats) : option exn :=
  match ev with
  | ERetrieve _ _ (Err e) | EBuildContext _ (Err e)
  | EOllamaChat _ _ (Err e) | EBuildIndex _ _ _ _ (Err e) => Some e
  | _ => None
  end.

(** A string neither starts nor ends with white space. *)
Definition trimmed (s : string) : Prop :=
  (∀ c rest, Py.chars s = c :: rest → Py.is_space c = false)
  ∧ (∀ init c, Py.chars s = init ++ [c] → Py.is_space c = false).

(** A small [core] to run the routes on: the state counts the clock reads,
    retrieval and the model server are given. *)
Module Demo.

Definition first_k (index : list string) (q : string) (k : Z)
  : result exn (list string) :=
  match index with
  | [] => Err (Exn "EmptyIndexError" "retrieval failed")
  | _ => Ok (take (Z.to_nat k) index)
  end.

Definition core (retr : string -> Z -> result exn (list string))
    (chat : string -> string -> result exn string)
  : Core nat string nat Z :=
  {| DATA_DIR := "data";
     ARTIFACTS_DIR := "artifacts";
     ALLOWED_EXTS := {[ ".txt"; ".md" ]};
     TOP_K_DEFAULT := 4;
     LLM_MODEL := "llama3";
     EMB_MODEL := "nomic-embed-text";
     SYSTEM_PROMPT_RAG := "Answer from the context.";
     SYSTEM_PROMPT_BARE := "Answer.";
     retrieve q k w := (retr q k, w);
     build_context hits w := (Ok (fold_right (fun h acc => h +:+ acc) "" hits), w);
     ollama_chat sys user w := (chat sys user, w);
     build_index_from_data d c o m w :=
       (if o <? c then Ok 2%nat
        else Err (Exn "InvalidConfig" "overlap must be smaller than chunk_size"), w);
     time_time w := (Z.of_nat w, S w);
     elapsed_ms t0 t1 := t1 - t0;
     int_of_str s := Err (Exn "ValueError" "invalid literal for int()") |}.

Definition echo (sys user : string) : result exn string := Ok ("re: " +:+ user).

Definition down (sys user : string) : result exn string :=
  Err (Exn "GenerationBackendError" "model server unreachable").


(** The same [core] with the artifacts kept inside the data directory. *)
Definition nested : Core nat string nat Z :=
  let c := core (first_k []) echo in
  {| DATA_DIR := DATA_DIR c;
     ARTIFACTS_DIR := "data/artifacts";
     ALLOWED_EXTS := ALLOWED_EXTS c;
     TOP_K_DEFAULT := TOP_K_DEFAULT c;
     LLM_MODEL := LLM_MODEL c;
     EMB_MODEL := EMB_MODEL c;
     SYSTEM_PROMPT_RAG := SYSTEM_PROMPT_RAG c;
     SYSTEM_PROMPT_BARE := SYSTEM_PROMPT_BARE c;
     retrieve := retrieve c;
     build_context := build_context c;
     ollama_chat := ollama_chat c;
     build_index_from_data := build_index_from_data c;
     time_time := time_time c;
     elapsed_ms := elapsed_ms c;
     int_of_str := int_of_str c |}.

Definition fs : FS.state :=
  FS.State [] (list_to_map
    [([], FS.Dir); (["data"], FS.Dir); (["data"; "old.txt"], FS.File []);
     (["artifacts"], FS.Dir); (["artifacts"; "index.bin"], FS.File []);
     (["artifacts"; "tmp"], FS.Dir); (["artifacts"; "tmp"; "x"], FS.File [])]).

(** A file system where the data directory is missing. *)
Definition fs_bare : FS.state :=
  FS.State [] (list_to_map [([], FS.Dir); (["artifacts"], FS.Dir)]).

(** A file system where a regular file has the name of the data directory. *)
Definition fs_data_file : FS.state :=
  FS.State [] (list_to_map [([], FS.Dir); (["data"], FS.File [])]).

(** A file system with the page of the UI. *)
Definition fs_ui : FS.state :=
  FS.State [] (list_to_map
    [([], FS.Dir); (["data"], FS.Dir); (["data"; "old.txt"], FS.File []);
     (["artifacts"], FS.Dir); (["static"], FS.Dir);
     (["static"; "index.html"], FS.File [Byte.x3c])]).

End Demo.

(** * Properties *)

(** ** Python strings on examples *)

Example basename_nested : Py.basename "up/../etc/notes.TXT" = "notes.TXT".
Proof. reflexivity. Qed.

Example splitext_plain : Py.splitext "notes.tar.GZ" = ("notes.tar", ".GZ").
Proof. reflexivity. Qed.

Example splitext_hidden : Py.splitext "..txt" = ("..txt", "").
Proof. reflexivity. Qed.

Example strip_both : Py.strip "  what is RAG?  " = "what is RAG?".
Proof. reflexivity. Qed.

Example join_plain : Py.join "data" "a.txt" = "data/a.txt".
Proof. reflexivity. Qed.

Example join_slash : Py.join "data/" "a.txt" = "data/a.txt".
Proof. reflexivity. Qed.

(** ** Strings *)

Lemma lstrip_blank (l : list ascii) :
  Forall (fun c => Py.is_space c = true) l → Py.lstrip l = [].
Proof.
  induction 1 as [|c l Hc _ IH]; simpl; [done|]. by rewrite Hc.
Qed.

Lemma strip_blank (s : string) :
  Forall (fun c => Py.is_space c = true) (Py.chars s) → Py.strip s = "".
Proof.
  intros H. unfold Py.strip. by rewrite (lstrip_blank _ H).
Qed.

(** ** The query route *)

Lemma question_of_blank (payload : gmap string json) :
  blank_question payload →
  py_strip (get_or payload "question" (JStr "")) = Ok "".
Proof.
  unfold get_or. intros [-> | [-> | (s & -> & Hs)]]; simpl; try done.
  destruct (String.eqb s ""); simpl; by rewrite ?strip_blank.
Qed.

Section QueryFacts.
Context {W Hit Stats Time : Type} (core : Core W Hit Stats Time).

(** C8: a query whose question is absent, null or blank is refused with
    status 400 and detail ['question' is required]; the state of [core] and
    the list of recorded calls are as before, so neither retrieval nor the
    generation collaborator was called. *)
Theorem query_blank_question_refused (payload : gmap string json) (w : W)
    (tr : list (event Hit Stats)) :
  blank_question payload →
  api_query (traced core) payload (w, tr)
  = (Err (HTTPException 400 "'question' is required"), (w, tr)).
Proof.
  intros Hb. unfold api_query, try_except, mbind, M_bind, bind, lift, call.
  by rewrite (question_of_blank _ Hb).
Qed.

Lemma logged_inv {A} (mk : result exn A → event Hit Stats)
    (f : W → result exn A * W) s r s' :
  logged mk f s = (r, s') →
  ∃ w', f s.1 = (r, w') ∧ s' = (w', s.2 ++ [mk r]).
Proof.
  unfold logged. destruct (f s.1) as [r0 w0]. intros [= <- <-]. eauto.
Qed.

Lemma query_runs (payload : gmap string json) (w w' : W)
    (tr0 tr : list (event Hit Stats)) out :
  api_query (traced core) payload (w, tr0) = (out, (w', tr)) →
  ∃ evs, tr = tr0 ++ evs ∧ query_run core payload out evs.
Proof.
  unfold api_query, try_except, mbind, M_bind, bind, lift, call, now,
    mret, M_ret, ret, raise, query_handler.
  simpl. intros H.
  repeat (case_match; unfold raise, query_handler in *; simplify_eq/=);
    unfold raise in *; simplify_eq/=;
    repeat match goal with
      | H : logged _ _ _ = _ |- _ =>
          apply logged_inv in H as (? & ? & ?); simplify_eq/=
      end;
    rewrite <- ?(assoc_L (++)); simpl.
  all: try (eexists; split; [reflexivity|]).
  all: try (exists []; split; [by rewrite (right_id_L [] (++))|]).
  all: try match goal with
    | H : (?q =? "")%string = true |- _ => apply String.eqb_eq in H; subst q
    end.
  all: try match goal with
    | H : (?q =? "")%string = false |- _ => apply String.eqb_neq in H
    end.
  all: try by (econstructor; unfold asked, wanted; eauto).
Qed.

Lemma asked_inv (payload : gmap string json) (q : string) :
  asked payload q →
  ∃ s, payload !! "question" = Some (JStr s) ∧ q = Py.strip s.
Proof.
  unfold asked, get_or. intros [H Hq].
  destruct (payload !! "question") as [v|]; simplify_eq/=.
  destruct (truthy v); simplify_eq/=.
  destruct v; simplify_eq/=. eauto.
Qed.

Lemma asked_unique (payload : gmap string json) (q q' : string) :
  asked payload q → asked payload q' → q = q'.
Proof. unfold asked. intros [H _] [H' _]. congruence. Qed.

(** C1, as amended: when the query route answers, it has called the
    generation collaborator exactly twice: first with the RAG system prompt
    and the user prompt made of the stripped question followed by the context
    assembled from the retrieved chunks, then with the bare system prompt and
    the question alone; the two answers are the [rag] and [llm] answers of
    the response. *)
Theorem query_answer_from_two_generations (payload : gmap string json) (w w' : W)
    (tr : list (event Hit Stats)) (resp : query_response Hit) :
  api_query (traced core) payload (w, []) = (Ok resp, (w', tr)) →
  ∃ s ctx,
    payload !! "question" = Some (JStr s) ∧ Py.strip s ≠ "" ∧
    EBuildContext (rag_chunks resp) (Ok ctx) ∈ tr ∧
    generation_calls tr
    = [ EOllamaChat (SYSTEM_PROMPT_RAG core)
          ("Question:" +:+ nl +:+ Py.strip s +:+ nl +:+ nl +:+ "Context:" +:+ nl +:+ ctx)
          (Ok (rag_answer resp));
        EOllamaChat (SYSTEM_PROMPT_BARE core) (Py.strip s) (Ok (llm_answer resp)) ].
Proof.
  intros H. apply query_runs in H as (evs & -> & Hrun).
  inversion Hrun as [| | | | | | |q ctx resp' Hq Hk]; subst.
  destruct (asked_inv _ _ Hq) as (s & Hs & ->).
  exists s, ctx. split_and!; [done|by destruct Hq|set_solver|done].
Qed.


(** C6: when the generation collaborator raises during a query, in the call
    with context or in the bare call, the query fails with status 500 and the
    message of the failure as detail; it returns no response. *)
Theorem generation_failure_surfaces (payload : gmap string json) (w w' : W)
    (tr : list (event Hit Stats)) out (sys user : string) (e : exn) :
  api_query (traced core) payload (w, []) = (out, (w', tr)) →
  EOllamaChat sys user (Err e) ∈ tr →
  out = Err (HTTPException 500 (exn_str e)).
Proof.
  intros H Hin. apply query_runs in H as (evs & -> & Hrun).
  inversion Hrun; subst; simpl in Hin;
    repeat (apply elem_of_cons in Hin as [Hin|Hin]; simplify_eq/=);
    try (by apply elem_of_nil in Hin); done.
Qed.

(** C9: for a query with a question, the number passed to retrieval is
    [TOP_K_DEFAULT] when the [top_k] field is absent, null or 0, and the
    field's own value when that is any other integer, negative ones
    included. *)
Theorem query_top_k_passed_through (payload : gmap string json) (w w' : W)
    (tr : list (event Hit Stats)) out (q : string) :
  asked payload q →
  api_query (traced core) payload (w, []) = (out, (w', tr)) →
  (top_k_missing payload →
   ∃ r rest, tr = ERetrieve q (TOP_K_DEFAULT core) r :: rest)
  ∧ (∀ n, payload !! "top_k" = Some (JInt n) → n ≠ 0 →
     ∃ r rest, tr = ERetrieve q n r :: rest).
Proof.
  intros Hq H. apply query_runs in H as (evs & -> & Hrun).
  assert (∀ k, (top_k_missing payload → wanted core payload k → k = TOP_K_DEFAULT core)
             ∧ (∀ n, payload !! "top_k" = Some (JInt n) → n ≠ 0 →
                wanted core payload k → k = n)) as Hk.
  { intros k. unfold wanted, get_or. split.
    - intros [-> | [-> | ->]]; simpl; congruence.
    - intros n -> Hn. simpl. destruct (Z.eqb_spec n 0); simpl; congruence. }
  assert (∀ e, py_int (int_of_str core)
                 (get_or payload "top_k" (JInt (TOP_K_DEFAULT core))) = Err e →
               ¬ top_k_missing payload ∧ ∀ n, payload !! "top_k" ≠ Some (JInt n)) as He.
  { intros e. unfold get_or. split.
    - intros [Hm | [Hm | Hm]]; rewrite Hm in *; simplify_eq/=.
    - intros n Hm. rewrite Hm in *. simpl in *.
      destruct (Z.eqb_spec n 0); simplify_eq/=. }
  destruct Hq as [Hq Hne].
  inversion Hrun; subst; simpl;
    try congruence;
    try match goal with
      | H : asked _ ?q' |- _ =>
          destruct H as [H _]; rewrite Hq in H; injection H as <-
      end.
  { destruct (He _ H0) as [Hnm Hnn].
    split; [intros Hm|intros n Hm Hn]; exfalso; [by apply Hnm|by apply (Hnn n)]. }
  all: match goal with Hw : wanted _ _ ?k |- _ =>
      destruct (Hk k) as [Hd Hn];
      split; [intros Hm; rewrite (Hd Hm Hw)|intros n Hm Hn0; rewrite (Hn n Hm Hn0 Hw)];
      eauto
    end.
Qed.

(** C5: when [core.build_index_from_data] raises during a build, the build
    route fails with status 500 and the message of the error as detail; it
    answers [ok] only with the statistics of a build that returned. *)
Theorem build_error_propagates (chunk_size overlap : Z) (embed_model : string)
    (w w' : W) (tr : list (event Hit Stats)) out :
  api_build (traced core) chunk_size overlap embed_model (w, []) = (out, (w', tr)) →
  ∃ r, tr = [EBuildIndex (DATA_DIR core) chunk_size overlap embed_model r] ∧
       match r with
       | Err e => out = Err (HTTPException 500 (exn_str e))
       | Ok stats => ∃ ms, out = Ok (BuildResponse true stats ms)
       end.
Proof.
  unfold api_build, try_except, mbind, M_bind, bind, call, now, mret, M_ret, ret,
    build_handler, raise.
  simpl. intros H.
  repeat (case_match; simplify_eq/=);
    repeat match goal with
      | H : logged _ _ _ = _ |- _ =>
          apply logged_inv in H as (? & ? & ?); simplify_eq/=
      end;
    eexists; (split; [reflexivity|]); simpl; eauto.
Qed.

End QueryFacts.

(** ** The query and build routes on the small [core] *)

Lemma query_blank_question_refused_witness :
  blank_question {[ "question" := JStr "   " ]}
  ∧ api_query (traced (Demo.core (Demo.first_k ["alpha"; "beta"]) Demo.echo))
      {[ "question" := JStr "   " ]} (0%nat, [])
    = (Err (HTTPException 400 "'question' is required"), (0%nat, [])).
Proof.
  assert (blank_question {[ "question" := JStr "   " ]}) as Hb.
  { right; right. exists "   ". split; [reflexivity|]. repeat constructor. }
  split; [exact Hb|].
  exact (query_blank_question_refused _ _ _ _ Hb).
Defined.

(** C1 as stated fails: a query without a question is handled with no call to
    the generation collaborator at all. *)
Lemma blank_query_makes_no_generation_call :
  length (generation_calls
            (api_query (traced (Demo.core (Demo.first_k ["alpha"; "beta"]) Demo.echo))
               ∅ (0%nat, [])).2.2)
  ≠ 2%nat.
Proof. vm_compute. discriminate. Qed.

Lemma query_answer_from_two_generations_witness :
  ∃ resp tr,
    api_query (traced (Demo.core (Demo.first_k ["alpha"; "beta"]) Demo.echo))
      {[ "question" := JStr " hi " ]} (0%nat, [])
    = (Ok resp, (4%nat, tr))
    ∧ ∃ s ctx,
        ({[ "question" := JStr " hi " ]} : gmap string json) !! "question"
        = Some (JStr s)
        ∧ Py.strip s ≠ ""
        ∧ EBuildContext (rag_chunks resp) (Ok ctx) ∈ tr
        ∧ generation_calls tr
          = [ EOllamaChat "Answer from the context."
                ("Question:" +:+ nl +:+ Py.strip s +:+ nl +:+ nl
                 +:+ "Context:" +:+ nl +:+ ctx)
                (Ok (rag_answer resp));
              EOllamaChat "Answer." (Py.strip s) (Ok (llm_answer resp)) ].
Proof.
  eexists _, _. split; [reflexivity|].
  eapply (query_answer_from_two_generations
            (Demo.core (Demo.first_k ["alpha"; "beta"]) Demo.echo)
            {[ "question" := JStr " hi " ]} 0%nat 4%nat).
  reflexivity.
Defined.



Lemma generation_failure_surfaces_witness :
  ∃ out tr,
    api_query (traced (Demo.core (Demo.first_k ["alpha"; "beta"]) Demo.down))
      {[ "question" := JStr "hi" ]} (0%nat, [])
    = (out, (2%nat, tr))
    ∧ out = Err (HTTPException 500 "model server unreachable").
Proof.
  eexists _, _. split; [reflexivity|].
  eapply (generation_failure_surfaces
            (Demo.core (Demo.first_k ["alpha"; "beta"]) Demo.down)
            {[ "question" := JStr "hi" ]} 0%nat 2%nat _ _
            "Answer from the context."
            ("Question:" +:+ nl +:+ "hi" +:+ nl +:+ nl +:+ "Context:" +:+ nl +:+ "alphabeta")
            (Exn "GenerationBackendError" "model server unreachable")).
  - reflexivity.
  - do 2 apply list_elem_of_further. apply list_elem_of_here.
Defined.

Lemma query_top_k_passed_through_witness :
  ∃ out tr,
    api_query (traced (Demo.core (Demo.first_k ["alpha"; "beta"]) Demo.echo))
      {[ "question" := JStr "hi"; "top_k" := JInt (-1) ]} (0%nat, [])
    = (out, (4%nat, tr))
    ∧ ∃ r rest, tr = ERetrieve "hi" (-1) r :: rest.
Proof.
  eexists _, _. split; [reflexivity|].
  eapply (query_top_k_passed_through
            (Demo.core (Demo.first_k ["alpha"; "beta"]) Demo.echo)
            {[ "question" := JStr "hi"; "top_k" := JInt (-1) ]} 0%nat 4%nat).
  - split; [reflexivity|discriminate].
  - reflexivity.
  - reflexivity.
  - discriminate.
Defined.

Lemma build_error_propagates_witness :
  ∃ out tr,
    api_build (traced (Demo.core (Demo.first_k []) Demo.echo)) 200 1200 "nomic-embed-text"
      (0%nat, [])
    = (out, (1%nat, tr))
    ∧ ∃ r, tr = [EBuildIndex "data" 200 1200 "nomic-embed-text" r]
           ∧ match r with
             | Err e => out = Err (HTTPException 500 (exn_str e))
             | Ok stats => ∃ ms, out = Ok (BuildResponse true stats ms)
             end.
Proof.
  eexists _, _. split; [reflexivity|].
  eapply (build_error_propagates
            (Demo.core (Demo.first_k []) Demo.echo) 200 1200 "nomic-embed-text"
            0%nat 1%nat).
  reflexivity.
Defined.

(** ** Path strings *)

Lemma chars_of_chars (l : list ascii) : Py.chars (Py.of_chars l) = l.
Proof. apply list_ascii_of_string_of_list_ascii. Qed.

Lemma of_chars_chars (s : string) : Py.of_chars (Py.chars s) = s.
Proof. apply string_of_list_ascii_of_string. Qed.

Lemma chars_app (a b : string) : Py.chars (a +:+ b) = Py.chars a ++ Py.chars b.
Proof. induction a as [|c a IH]; simpl; [done|]. by rewrite <- IH. Qed.

Lemma rfind_lower_bound (c : ascii) (l : list ascii) : -1 ≤ Py.rfind c l.
Proof.
  induction l as [|x l IH]; simpl; [lia|].
  destruct (Z.leb_spec 0 (Py.rfind c l)); [lia|]. destruct (Ascii.eqb x c); lia.
Qed.

(** Nothing after the last occurrence is the needle. *)
Lemma rfind_suffix_free (c : ascii) (l : list ascii) :
  c ∉ Py.slice_from (Py.rfind c l + 1) l.
Proof.
  unfold Py.slice_from. induction l as [|x l IH]; simpl.
  { apply not_elem_of_nil. }
  pose proof (rfind_lower_bound c l) as Hlb.
  destruct (Z.leb_spec 0 (Py.rfind c l)) as [Hr|Hr].
  - replace (Z.to_nat (Py.rfind c l + 1 + 1)) with (S (Z.to_nat (Py.rfind c l + 1)))
      by lia. done.
  - assert (Py.rfind c l = -1) as Hm by lia. rewrite Hm in IH. simpl in IH.
    destruct (Ascii.eqb_spec x c) as [->|Hx]; simpl; [done|].
    apply not_elem_of_cons. split; [congruence|done].
Qed.

Lemma basename_no_sep (p : string) : Py.sep ∉ Py.chars (Py.basename p).
Proof.
  unfold Py.basename. rewrite chars_of_chars. apply rfind_suffix_free.
Qed.

Lemma split_nonempty (l : list ascii) : FS.split l ≠ [].
Proof.
  destruct l as [|c l]; simpl; [done|].
  destruct (Ascii.eqb c Py.sep); [done|]. by destruct (FS.split l).
Qed.

Lemma split_app_sep (a b : list ascii) :
  FS.split (a ++ Py.sep :: b) = FS.split a ++ FS.split b.
Proof.
  induction a as [|c a IH]; simpl; [done|].
  destruct (Ascii.eqb c Py.sep); [by rewrite IH|].
  rewrite IH. pose proof (split_nonempty a). by destruct (FS.split a).
Qed.

Lemma split_no_sep (b : list ascii) : Py.sep ∉ b → FS.split b = [b].
Proof.
  induction b as [|c b IH]; simpl; [done|].
  intros [Hc Hb]%not_elem_of_cons.
  destruct (Ascii.eqb_spec c Py.sep); [done|]. by rewrite IH.
Qed.

Lemma components_app_sep (a b : string) :
  Py.sep ∉ Py.chars b →
  FS.components (a +:+ String Py.sep b) = FS.components a ++ [b].
Proof.
  intros Hb. unfold FS.components.
  rewrite chars_app. change (Py.chars (String Py.sep b)) with (Py.sep :: Py.chars b).
  rewrite split_app_sep, (split_no_sep _ Hb), map_app.
  simpl. by rewrite of_chars_chars.
Qed.

Lemma endswith_sep_inv (a : string) :
  Py.endswith_sep a = true → ∃ a', a = a' +:+ String Py.sep "".
Proof.
  unfold Py.endswith_sep. intros H.
  destruct (rev (Py.chars a)) as [|c r] eqn:Hr; [done|].
  apply Ascii.eqb_eq in H as ->.
  exists (Py.of_chars (rev r)).
  rewrite <- (of_chars_chars a), <- (rev_involutive (Py.chars a)), Hr. simpl.
  rewrite <- (of_chars_chars (_ +:+ _)), chars_app, chars_of_chars. done.
Qed.

Lemma startswith_sep_app (a b : string) :
  a ≠ "" → Py.startswith_sep (a +:+ b) = Py.startswith_sep a.
Proof. by destruct a. Qed.

Lemma startswith_sep_no_sep (b : string) :
  Py.sep ∉ Py.chars b → Py.startswith_sep b = false.
Proof.
  destruct b as [|c b]; simpl; [done|].
  intros [Hc _]%not_elem_of_cons. by apply Ascii.eqb_neq.
Qed.

Lemma app_sep_assoc (a x : string) :
  (a +:+ String Py.sep "") +:+ x = a +:+ String Py.sep x.
Proof.
  induction a as [|c a IH]; [done|].
  change (String c ((a +:+ String Py.sep "") +:+ x) = String c (a +:+ String Py.sep x)).
  by rewrite IH.
Qed.

Lemma walk_plain (stack : list string) (name : string) :
  plain_name name → FS.walk stack name = stack ++ [name].
Proof.
  intros (_ & H1 & H2 & H3). unfold FS.walk.
  apply String.eqb_neq in H1, H2, H3. by rewrite H1, H2, H3.
Qed.

(** Joining a directory and a plain name gives the path of the entry of that
    name in the directory. *)
Lemma resolve_join_plain (st : FS.state) (dir name : string) :
  plain_name name →
  FS.resolve st (Py.join dir name) = FS.resolve st dir ++ [name].
Proof.
  intros Hp. pose proof Hp as (Hsep & Hne & _).
  unfold Py.join. rewrite (startswith_sep_no_sep _ Hsep).
  destruct (String.eqb_spec dir "") as [->|Hdir]; cbn [orb].
  { change ("" +:+ name) with name.
    unfold FS.resolve. rewrite (startswith_sep_no_sep _ Hsep).
    unfold FS.components. rewrite (split_no_sep _ Hsep). simpl.
    by rewrite of_chars_chars, walk_plain. }
  destruct (Py.endswith_sep dir) eqn:Hend.
  - apply endswith_sep_inv in Hend as [dir' ->].
    unfold FS.resolve. rewrite startswith_sep_app by done.
    rewrite app_sep_assoc, !components_app_sep by (done || apply not_elem_of_nil).
    rewrite !fold_left_app. simpl. by rewrite walk_plain.
  - unfold FS.resolve. rewrite startswith_sep_app by done.
    rewrite components_app_sep by done.
    rewrite fold_left_app. simpl. by rewrite walk_plain.
Qed.

(** The components of a path string hold no separator, and the string is
    its components with separators between them. *)
Lemma split_no_sep_elem (l x : list ascii) : x ∈ FS.split l → Py.sep ∉ x.
Proof.
  revert x. induction l as [|c l IH]; simpl; intros x.
  { intros ->%list_elem_of_singleton. apply not_elem_of_nil. }
  destruct (Ascii.eqb_spec c Py.sep) as [->|Hc].
  - intros [->|Hx]%elem_of_cons; [apply not_elem_of_nil|by apply IH].
  - pose proof (split_nonempty l). destruct (FS.split l) as [|h t]; [done|].
    intros [->|Hx]%elem_of_cons.
    + apply not_elem_of_cons. split; [congruence|]. apply IH, list_elem_of_here.
    + by apply IH, list_elem_of_further.
Qed.

Lemma components_no_sep (s : string) :
  Forall (fun c => Py.sep ∉ Py.chars c) (FS.components s).
Proof.
  apply Forall_forall. intros c Hc. unfold FS.components in Hc.
  apply list_elem_of_In, in_map_iff in Hc as (x & <- & Hx).
  rewrite chars_of_chars. by apply (split_no_sep_elem (Py.chars s)), list_elem_of_In.
Qed.

Lemma unsplit_cons (c : string) (rest : list string) :
  rest ≠ [] → FS.unsplit (c :: rest) = c +:+ String Py.sep (FS.unsplit rest).
Proof. by destruct rest. Qed.

Lemma unsplit_components (s : string) : FS.unsplit (FS.components s) = s.
Proof.
  rewrite <- (of_chars_chars s) at 2. unfold FS.components.
  induction (Py.chars s) as [|c l IH]; [done|]. simpl FS.split.
  pose proof (split_nonempty l) as Hne.
  destruct (Ascii.eqb_spec c Py.sep) as [->|Hc].
  - simpl map. rewrite unsplit_cons by by destruct (FS.split l).
    by rewrite IH.
  - destruct (FS.split l) as [|h t]; [done|]. simpl map in *.
    destruct t as [|h2 t]; simpl in *; by rewrite <- IH.
Qed.

Lemma components_app (a b : string) :
  FS.components (a +:+ String Py.sep b) = FS.components a ++ FS.components b.
Proof.
  unfold FS.components. rewrite chars_app.
  change (Py.chars (String Py.sep b)) with (Py.sep :: Py.chars b).
  by rewrite split_app_sep, map_app.
Qed.

Lemma components_single (c : string) :
  Py.sep ∉ Py.chars c → FS.components c = [c].
Proof.
  intros H. unfold FS.components. rewrite (split_no_sep _ H). simpl.
  by rewrite of_chars_chars.
Qed.

Lemma components_unsplit (l : list string) :
  l ≠ [] → Forall (fun c => Py.sep ∉ Py.chars c) l →
  FS.components (FS.unsplit l) = l.
Proof.
  induction l as [|c l IH]; [done|]. intros _ [Hc Hl]%Forall_cons.
  destruct l as [|d l]; [by apply components_single|].
  rewrite unsplit_cons by done. rewrite components_app, components_single by done.
  by rewrite IH.
Qed.

Lemma string_app_assoc (a b c : string) : (a +:+ b) +:+ c = a +:+ (b +:+ c).
Proof.
  induction a as [|x a IH]; [done|].
  change (String x ((a +:+ b) +:+ c) = String x (a +:+ (b +:+ c))). by rewrite IH.
Qed.

Lemma unsplit_snoc (l : list string) (c : string) :
  l ≠ [] → FS.unsplit (l ++ [c]) = FS.unsplit l +:+ String Py.sep c.
Proof.
  induction l as [|x l IH]; [done|]. intros _.
  destruct l as [|y l]; [done|].
  change ((x :: y :: l) ++ [c]) with (x :: ((y :: l) ++ [c])).
  rewrite !unsplit_cons by done. rewrite IH by done.
  by rewrite string_app_assoc.
Qed.

Lemma has_nul_app (a b : string) :
  FS.has_nul (a +:+ b) = FS.has_nul a || FS.has_nul b.
Proof. unfold FS.has_nul. by rewrite chars_app, existsb_app. Qed.

Lemma byte_length_nonneg (s : string) : 0 ≤ FS.byte_length s.
Proof.
  unfold FS.byte_length. induction (Py.chars s) as [|c l IH]; simpl; [done|].
  destruct (Py.code c <? 128); lia.
Qed.

Lemma byte_length_app (a b : string) :
  FS.byte_length (a +:+ b) = FS.byte_length a + FS.byte_length b.
Proof.
  unfold FS.byte_length. rewrite chars_app.
  induction (Py.chars a) as [|c l IH]; simpl; [done|]. rewrite IH. lia.
Qed.

(** ** Plain path strings *)

Lemma components_first (s c : string) (rest : list string) :
  FS.components s = c :: rest →
  Py.startswith_sep s = true ↔ c = "" ∧ rest ≠ [].
Proof.
  destruct s as [|x s]; unfold FS.components; simpl.
  { intros [= <- <-]. split; [done|]. by intros [_ ?]. }
  destruct (Ascii.eqb x Py.sep) eqn:Hx; simpl.
  - intros [= <- <-]. split; [|done]. intros _. split; [done|].
    pose proof (split_nonempty (Py.chars s)). by destruct (FS.split (Py.chars s)).
  - destruct (FS.split (Py.chars s)); simpl; intros [= <- <-];
      (split; [done|]); by intros [? _].
Qed.

(** A plain path string is a non-empty list of names, from the root when it
    starts with a separator and from the working directory otherwise. *)
Lemma plain_inv (s : string) :
  FS.plain s = true →
  ∃ names,
    names ≠ [] ∧ forallb FS.real_name names = true
    ∧ FS.components s = (if Py.startswith_sep s then "" :: names else names).
Proof.
  unfold FS.plain. intros [_ H]%andb_true_iff.
  destruct (FS.components s) as [|c rest] eqn:Hc; [done|].
  apply andb_true_iff in H as [Hfirst Hrest].
  pose proof (components_first _ _ _ Hc) as Hstart.
  destruct (String.eqb_spec c "") as [->|Hne].
  - destruct rest as [|x rest]; [done|].
    rewrite (proj2 Hstart) by done. by exists (x :: rest).
  - destruct (Py.startswith_sep s); [by destruct (proj1 Hstart)|].
    exists (c :: rest). split; [done|]. split; [|done]. simpl. by rewrite Hfirst.
Qed.

Lemma real_name_inv (c : string) :
  FS.real_name c = true →
  c ≠ "" ∧ c ≠ "." ∧ c ≠ ".." ∧ (FS.NAME_MAX <? FS.byte_length c) = false.
Proof.
  unfold FS.real_name. rewrite !andb_true_iff, !negb_true_iff, !String.eqb_neq.
  intros [[[? ?] ?] Hl]. split_and!; [done..|].
  apply Z.leb_le in Hl. apply Z.ltb_ge. done.
Qed.

Lemma walk_names (names cur : list string) :
  forallb FS.real_name names = true → fold_left FS.walk names cur = cur ++ names.
Proof.
  revert cur. induction names as [|x names IH]; intros cur; simpl.
  { by rewrite (right_id_L [] (++)). }
  intros [Hx Hn]%andb_true_iff. apply real_name_inv in Hx as (H1 & H2 & H3 & _).
  unfold FS.walk at 2. apply String.eqb_neq in H1, H2, H3. rewrite H1, H2, H3.
  simpl. rewrite IH by done. by rewrite <- (assoc_L (++)).
Qed.

Lemma plain_resolve (st : FS.state) (s : string) :
  FS.plain s = true →
  ∃ names,
    names ≠ [] ∧ forallb FS.real_name names = true
    ∧ FS.components s = (if Py.startswith_sep s then "" :: names else names)
    ∧ FS.resolve st s
      = (if Py.startswith_sep s then [] else FS.cwd st) ++ names.
Proof.
  intros (names & Hne & Hall & Hc)%plain_inv. exists names.
  split_and!; [done..|]. unfold FS.resolve. rewrite Hc.
  destruct (Py.startswith_sep s); simpl; by apply walk_names.
Qed.

Lemma plain_named (s : string) : FS.plain s = true → s ≠ "".
Proof. by intros H ->. Qed.

Lemma plain_not_root (st : FS.state) (s : string) :
  FS.plain s = true → FS.resolve st s ≠ [].
Proof.
  intros (names & Hne & _ & _ & ->)%(plain_resolve st).
  intros [_ ?]%app_eq_nil. done.
Qed.

Lemma plain_last (s : string) :
  FS.plain s = true → FS.real_name (FS.last_component s) = true.
Proof.
  intros (names & Hne & Hall & Hc)%plain_inv. unfold FS.last_component.
  assert (last (FS.components s) = last names) as ->.
  { rewrite Hc. destruct (Py.startswith_sep s); [|done].
    rewrite last_cons. destruct (last names) eqn:Hl; [done|].
    by apply last_None in Hl. }
  destruct (last names) as [x|] eqn:Hl; [|by apply last_None in Hl].
  simpl. rewrite forallb_forall in Hall. apply Hall, list_elem_of_In.
  apply last_Some in Hl as [l' ->]. apply elem_of_app. right. apply list_elem_of_here.
Qed.

Lemma plain_snoc (s : string) :
  FS.plain s = true →
  ∃ init c, FS.components s = init ++ [c] ∧ FS.real_name c = true.
Proof.
  intros H. pose proof (plain_last _ H) as Hl. unfold FS.last_component in Hl.
  destruct (last (FS.components s)) as [c|] eqn:Hc; [|done].
  apply last_Some in Hc as [init Hc]. by exists init, c.
Qed.

Lemma walk_name (stack : list string) (c : string) :
  FS.real_name c = true → FS.walk stack c = stack ++ [c].
Proof.
  intros (H1 & H2 & H3 & _)%real_name_inv. unfold FS.walk.
  apply String.eqb_neq in H1, H2, H3. by rewrite H1, H2, H3.
Qed.

Lemma last_name_plain (s : string) :
  FS.plain s = true → FS.last_name s = FS.last_component s.
Proof.
  intros (init & c & Hc & Hreal)%plain_snoc.
  unfold FS.last_name, FS.last_component. rewrite Hc, List.filter_app, last_snoc.
  apply real_name_inv in Hreal as (H1%String.eqb_neq & _). simpl List.filter.
  rewrite H1. simpl. by rewrite last_snoc.
Qed.

Lemma stages_snoc (l : list string) (c : string) :
  c ≠ "" →
  FS.stages (rev (l ++ [c])) = (FS.unsplit (l ++ [c]), c) :: FS.stages (rev l).
Proof.
  intros Hc. rewrite rev_app_distr. simpl.
  rewrite (proj2 (String.eqb_neq _ _) Hc), rev_involutive. done.
Qed.

(** A plain path string of several names: the stages [os.makedirs] goes
    through, and the path string of its head, which is plain as well. *)
Lemma plain_head (st : FS.state) (s : string) (l0 : list string) (c : string) :
  FS.plain s = true → FS.components s = l0 ++ [c] →
  FS.real_name c = true
  ∧ FS.stages (rev (FS.components s)) = (s, c) :: FS.stages (rev l0)
  ∧ (∃ parent, FS.resolve st s = parent ++ [c]
       ∧ (FS.stages (rev l0) = []
          ∨ (FS.plain (FS.unsplit l0) = true
             ∧ FS.components (FS.unsplit l0) = l0
             ∧ (∃ t heads, FS.stages (rev l0) = (FS.unsplit l0, t) :: heads)
             ∧ FS.resolve st (FS.unsplit l0) = parent))).
Proof.
  intros Hplain Hcomp.
  assert (FS.real_name c = true) as Hc.
  { pose proof (plain_last _ Hplain) as Hl. unfold FS.last_component in Hl.
    by rewrite Hcomp, last_snoc in Hl. }
  pose proof (real_name_inv _ Hc) as (Hc1 & _).
  split; [done|]. split.
  { rewrite Hcomp, stages_snoc by done. by rewrite <- Hcomp, unsplit_components. }
  exists (fold_left FS.walk l0 (if Py.startswith_sep s then [] else FS.cwd st)).
  split.
  { unfold FS.resolve. rewrite Hcomp, fold_left_app. simpl. by apply walk_name. }
  pose proof (plain_inv _ Hplain) as (names & Hne & Hall & Hnames).
  destruct (exists_last Hne) as (names0 & c' & ->).
  assert (l0 = (if Py.startswith_sep s then [""] else []) ++ names0) as Hl0.
  { rewrite Hcomp in Hnames. destruct (Py.startswith_sep s).
    - change ("" :: names0 ++ [c']) with (("" :: names0) ++ [c']) in Hnames.
      by apply app_inj_tail in Hnames as [-> _].
    - by apply app_inj_tail in Hnames as [-> _]. }
  destruct names0 as [|d names1 _] using rev_ind.
  { left. rewrite Hl0. by destruct (Py.startswith_sep s). }
  right. rewrite forallb_app in Hall. apply andb_true_iff in Hall as [Hall0 _].
  pose proof Hall0 as Hall1. rewrite forallb_app in Hall1.
  apply andb_true_iff in Hall1 as [Hall1 Hd]. simpl in Hd.
  rewrite andb_true_r in Hd. pose proof (real_name_inv _ Hd) as (Hd1 & _).
  assert (l0 ≠ []) as Hl0ne.
  { rewrite Hl0. destruct (Py.startswith_sep s); [done|]. by destruct names1. }
  assert (FS.components (FS.unsplit l0) = l0) as Hcl0.
  { apply components_unsplit; [done|].
    pose proof (components_no_sep s) as Hsep. rewrite Hcomp in Hsep.
    by apply Forall_app in Hsep as [? _]. }
  assert (s = FS.unsplit l0 +:+ String Py.sep c) as Hs.
  { rewrite <- (unsplit_components s) at 1. rewrite Hcomp. by apply unsplit_snoc. }
  assert (FS.unsplit l0 ≠ "") as Hune.
  { intros E. rewrite E in Hcl0. rewrite <- Hcl0 in Hl0.
    change (FS.components "") with [""] in Hl0.
    destruct (Py.startswith_sep s); destruct names1 as [|x [|y names1]];
      simplify_eq/=. }
  assert (Py.startswith_sep (FS.unsplit l0) = Py.startswith_sep s) as Hstart.
  { rewrite Hs. by rewrite startswith_sep_app. }
  assert (FS.plain (FS.unsplit l0) = true) as Hpl0.
  { unfold FS.plain in Hplain |- *.
    apply andb_true_iff in Hplain as [[Hnul Hlen]%andb_true_iff _].
    rewrite Hs, has_nul_app, negb_orb in Hnul. apply andb_true_iff in Hnul as [Hnul _].
    rewrite Hs, byte_length_app in Hlen. apply Z.ltb_lt in Hlen.
    pose proof (byte_length_nonneg (String Py.sep c)).
    rewrite Hnul, (proj2 (Z.ltb_lt _ _)) by lia. simpl.
    rewrite Hcl0, Hl0. destruct (Py.startswith_sep s); simpl.
    - rewrite Hall0, andb_true_r. clear. by destruct names1.
    - destruct names1 as [|x names1]; simpl in *.
      { rewrite (proj2 (String.eqb_neq _ _) Hd1). by rewrite Hd. }
      apply andb_true_iff in Hall0 as [Hx Hrest]. rewrite Hx.
      pose proof (real_name_inv _ Hx) as (Hx1%String.eqb_neq & _).
      by rewrite Hx1. }
  split_and!; [done..| |].
  - exists d, (FS.stages (rev ((if Py.startswith_sep s then [""] else []) ++ names1))).
    rewrite Hl0, (assoc_L (++)). by apply stages_snoc.
  - unfold FS.resolve. by rewrite Hcl0, Hstart.
Qed.

Lemma endswith_sep_last (a : string) :
  Py.endswith_sep a = true → FS.last_component a = "".
Proof.
  intros [a' ->]%endswith_sep_inv. unfold FS.last_component.
  rewrite components_app. change (FS.components "") with [""].
  by rewrite last_snoc.
Qed.

(** ** Files: what the operations change *)

Lemma wf_ancestor (st : FS.state) (p r : list string) (n : FS.node) :
  FS.wf st → FS.nodes st !! (p ++ r) = Some n → r ≠ [] →
  FS.nodes st !! p = Some FS.Dir.
Proof.
  intros [_ Hwf]. revert n. induction r as [|name r IH] using rev_ind; [done|].
  intros n Hn _. rewrite (assoc_L (++)) in Hn. apply Hwf in Hn.
  destruct r as [|x r]; [by rewrite (right_id_L [] (++)) in Hn|].
  by eapply IH.
Qed.

(** Below a missing path there is nothing. *)
Lemma wf_missing_below (st : FS.state) (p q : list string) :
  FS.wf st → FS.nodes st !! p = None → p `prefix_of` q →
  FS.nodes st !! q = None.
Proof.
  intros Hwf Hp [r ->]. destruct (FS.nodes st !! (p ++ r)) as [n|] eqn:Hq; [|done].
  destruct r as [|x r]; [rewrite (right_id_L [] (++)) in Hq; congruence|].
  apply (wf_ancestor _ _ _ _ Hwf) in Hq; [congruence|done].
Qed.

(** The walk arrives where the text of the path says. *)
Lemma reach_resolve (st : FS.state) (s : string) (h h' : bool)
    (cur comps p : list string) :
  FS.reach st s h cur comps = Ok (p, h') → p = fold_left FS.walk comps cur.
Proof.
  revert h cur. induction comps as [|c comps IH]; intros h cur; simpl.
  { by intros [= <- <-]. }
  destruct (String.eqb_spec c "") as [->|Hc]; [apply IH|].
  unfold FS.ENOENT, FS.ENOTDIR, FS.ENAMETOOLONG, FS.os_error.
  repeat case_match; try done; apply IH.
Qed.

Lemma lookup_resolve (st : FS.state) (s : string) (p : list string) (h : bool) :
  FS.lookup st s = Ok (p, h) → p = FS.resolve st s.
Proof.
  unfold FS.lookup, FS.resolve, FS.ENOENT, FS.ENAMETOOLONG, FS.os_error.
  destruct (FS.has_nul s); [done|]. destruct (String.eqb s ""); [done|].
  destruct (FS.PATH_MAX <=? FS.byte_length s); [done|]. apply reach_resolve.
Qed.

(** A walk that fails raises an error of the operating system. *)
Lemma reach_err (st : FS.state) (s : string) (h : bool) (cur comps : list string) f :
  FS.reach st s h cur comps = Err f →
  ∃ e, f = Raised e
       ∧ exn_class e ∈ ["FileNotFoundError"; "NotADirectoryError"; "OSError"].
Proof.
  revert h cur. induction comps as [|c comps IH]; intros h cur; simpl; [done|].
  destruct (String.eqb c ""); [apply IH|].
  unfold FS.ENOENT, FS.ENOTDIR, FS.ENAMETOOLONG, FS.os_error.
  repeat case_match; try apply IH; intros [= <-]; eexists; (split; [done|]);
    simpl; repeat first [apply list_elem_of_here|apply list_elem_of_further].
Qed.

(** A path string that is refused raises [ValueError] or an error of the
    operating system. *)
Lemma lookup_err (st : FS.state) (s : string) f :
  FS.lookup st s = Err f →
  ∃ e, f = Raised e
       ∧ exn_class e ∈ ["ValueError"; "FileNotFoundError"; "NotADirectoryError";
                        "OSError"].
Proof.
  unfold FS.lookup, FS.ENOENT, FS.ENAMETOOLONG, FS.os_error.
  destruct (FS.has_nul s); [|destruct (String.eqb s "");
    [|destruct (FS.PATH_MAX <=? FS.byte_length s)]];
    try (intros [= <-]; eexists; (split; [done|]); simpl;
         repeat first [apply list_elem_of_here|apply list_elem_of_further]).
  intros (e & -> & He)%reach_err. exists e. split; [done|].
  revert He. rewrite !elem_of_cons. tauto.
Qed.

Lemma reach_app (st : FS.state) (s : string) (h : bool) (cur l1 l2 : list string) :
  FS.reach st s h cur (l1 ++ l2)
  = match FS.reach st s h cur l1 with
    | Ok at_ => FS.reach st s at_.2 at_.1 l2
    | Err f => Err f
    end.
Proof.
  revert h cur. induction l1 as [|c l1 IH]; intros h cur; simpl; [done|].
  unfold FS.ENOENT, FS.ENOTDIR, FS.ENAMETOOLONG, FS.os_error.
  destruct (String.eqb c ""); [apply IH|]. destruct (h && _); [apply IH|].
  destruct (FS.nodes st !! cur) as [[|]|]; try done.
  destruct (FS.NAME_MAX <? FS.byte_length c); [done|apply IH].
Qed.

(** A walk whose last component is a name ends at the entry of that name in
    a directory that is there. *)
Lemma reach_named (st : FS.state) (s : string) (h h' : bool)
    (cur init p : list string) (c : string) :
  c ≠ "" → c ≠ "." → c ≠ ".." →
  FS.reach st s h cur (init ++ [c]) = Ok (p, h') →
  h' = false
  ∧ p = fold_left FS.walk init cur ++ [c]
  ∧ FS.nodes st !! fold_left FS.walk init cur = Some FS.Dir.
Proof.
  intros H1 H2 H3. rewrite reach_app.
  destruct (FS.reach st s h cur init) as [[q h1]|f] eqn:Hr; [|done].
  apply reach_resolve in Hr as ->. simpl.
  assert (FS.walk (fold_left FS.walk init cur) c = fold_left FS.walk init cur ++ [c])
    as ->.
  { unfold FS.walk. apply String.eqb_neq in H1, H2, H3. by rewrite H1, H2, H3. }
  apply String.eqb_neq in H1, H2, H3. rewrite H1, H2, H3, andb_false_r.
  unfold FS.ENOENT, FS.ENOTDIR, FS.ENAMETOOLONG, FS.os_error.
  destruct (FS.nodes st !! fold_left FS.walk init cur) as [[|]|]; try done.
  destruct (FS.NAME_MAX <? FS.byte_length c); [done|]. by intros [= <- <-].
Qed.

(** A walk that has looked up a component ends at a directory that is there
    or at an entry of one. *)
Lemma reach_inv (st : FS.state) (s : string) (h : bool) (cur comps p : list string) :
  FS.wf st → FS.reach st s h cur comps = Ok (p, false) →
  (h = false ∧ p = cur)
  ∨ FS.nodes st !! p = Some FS.Dir
  ∨ ∃ parent name, p = parent ++ [name] ∧ FS.nodes st !! parent = Some FS.Dir.
Proof.
  intros [Hroot Hwf]. revert h cur.
  induction comps as [|c comps IH]; intros h cur; simpl.
  { intros [= <- <-]. by left. }
  destruct (String.eqb_spec c "") as [->|Hc]; [apply IH|].
  destruct (h && _).
  { intros [[? _]|H]%IH; [done|by right]. }
  unfold FS.ENOENT, FS.ENOTDIR, FS.ENAMETOOLONG, FS.os_error.
  destruct (FS.nodes st !! cur) as [[|]|] eqn:Hcur; try done.
  destruct (FS.NAME_MAX <? FS.byte_length c); [done|].
  intros [[_ ->]|H]%IH; [|by right]. right. unfold FS.walk.
  apply String.eqb_neq in Hc. rewrite Hc. simpl.
  destruct (String.eqb c "."); [by left|].
  destruct (String.eqb c ".."); [|right; eauto].
  left. destruct cur as [|x cur _] using rev_ind; [done|].
  rewrite removelast_last. by eapply Hwf.
Qed.

Lemma lookup_inv (st : FS.state) (s : string) (p : list string) :
  FS.wf st → FS.lookup st s = Ok (p, false) →
  FS.nodes st !! p = Some FS.Dir
  ∨ ∃ parent name, p = parent ++ [name] ∧ FS.nodes st !! parent = Some FS.Dir.
Proof.
  intros Hwf. unfold FS.lookup, FS.ENOENT, FS.ENAMETOOLONG, FS.os_error.
  destruct (FS.has_nul s); [done|]. destruct (String.eqb s ""); [done|].
  destruct (FS.PATH_MAX <=? FS.byte_length s); [done|].
  intros [[? _]|H]%reach_inv; done.
Qed.

Lemma reach_step (st : FS.state) (s : string) (h : bool) (x : string)
    (rest cur : list string) :
  FS.real_name x = true → FS.nodes st !! cur = Some FS.Dir →
  FS.reach st s h cur (x :: rest) = FS.reach st s false (cur ++ [x]) rest.
Proof.
  intros Hx Hcur. pose proof (real_name_inv _ Hx) as (H1 & H2 & H3 & Hlen).
  simpl. rewrite (walk_name _ _ Hx).
  apply String.eqb_neq in H1, H2, H3. rewrite H1, H2, H3, andb_false_r.
  by rewrite Hcur, Hlen.
Qed.

(** The walk along names succeeds when every directory on the way is
    there. *)
Lemma reach_names (st : FS.state) (s : string) (h : bool) (x : string)
    (names cur : list string) :
  forallb FS.real_name (x :: names) = true →
  (∀ l y, l ++ [y] `prefix_of` x :: names → FS.nodes st !! (cur ++ l) = Some FS.Dir) →
  FS.reach st s h cur (x :: names) = Ok (cur ++ x :: names, false).
Proof.
  revert h x cur. induction names as [|z names IH]; intros h x cur;
    intros [Hx Hn]%andb_true_iff Hdirs;
    pose proof (Hdirs [] x) as Hcur; rewrite (right_id_L [] (++)) in Hcur;
    rewrite reach_step by (done || by (apply Hcur; eexists)).
  { done. }
  rewrite IH; [by rewrite <- (assoc_L (++))|done|].
  intros l y [k Hk]. rewrite <- (assoc_L (++)). simpl.
  apply (Hdirs (x :: l) y). exists k. simpl. by rewrite Hk.
Qed.

Lemma prefix_snoc_inv {A} (l p : list A) (y n : A) :
  l ++ [y] `prefix_of` p ++ [n] → l `prefix_of` p.
Proof.
  intros [k Hk]. destruct k as [|z k _] using rev_ind.
  - rewrite (right_id_L [] (++)) in Hk. by apply app_inj_tail in Hk as [-> _].
  - rewrite !(assoc_L (++)) in Hk. apply app_inj_tail in Hk as [-> _].
    rewrite <- (assoc_L (++)). by apply prefix_app_r.
Qed.

Lemma wf_prefix_dir (st : FS.state) (p q : list string) :
  FS.wf st → FS.nodes st !! p = Some FS.Dir → q `prefix_of` p →
  FS.nodes st !! q = Some FS.Dir.
Proof.
  intros Hwf Hp [r ->]. destruct r as [|x r].
  - by rewrite (right_id_L [] (++)) in Hp.
  - by apply (wf_ancestor st q (x :: r) FS.Dir).
Qed.

(** The walk along a plain path string into a directory that is there
    succeeds. *)
Lemma lookup_plain (st : FS.state) (s : string) (parent : list string) (name : string) :
  FS.wf st → FS.plain s = true →
  FS.resolve st s = parent ++ [name] → FS.nodes st !! parent = Some FS.Dir →
  FS.lookup st s = Ok (FS.resolve st s, false).
Proof.
  intros Hwf Hplain Hp Hpar. unfold FS.lookup.
  pose proof Hplain as [[Hnul Hlen]%andb_true_iff _]%andb_true_iff.
  apply negb_true_iff in Hnul. rewrite Hnul.
  rewrite (proj2 (String.eqb_neq _ _) (plain_named _ Hplain)).
  apply Z.ltb_lt in Hlen. rewrite (proj2 (Z.leb_gt _ _) Hlen).
  destruct (plain_resolve st s Hplain) as (names & Hne & Hall & Hc & Hr).
  rewrite Hr in *. set (start := if Py.startswith_sep s then [] else FS.cwd st) in *.
  destruct names as [|x names]; [done|].
  assert (FS.reach st s true start (x :: names) = Ok (start ++ x :: names, false))
    as Hreach.
  { apply reach_names; [done|]. intros l y Hpre.
    apply (wf_prefix_dir st parent); [done..|].
    apply (prefix_snoc_inv _ _ y name). rewrite <- Hp, <- (assoc_L (++)).
    by apply prefix_app. }
  rewrite Hc. unfold start in *. by destruct (Py.startswith_sep s).
Qed.

(** Where the walk along a plain path string ends when it succeeds. *)
Lemma lookup_plain_ok (st : FS.state) (s : string) (p : list string) (h : bool) :
  FS.plain s = true → FS.lookup st s = Ok (p, h) →
  p = FS.resolve st s ∧ h = false
  ∧ ∃ parent name, p = parent ++ [name] ∧ FS.nodes st !! parent = Some FS.Dir.
Proof.
  intros (init & c & Hc & Hreal)%plain_snoc Hl.
  pose proof (lookup_resolve _ _ _ _ Hl) as Hp. split; [done|].
  apply real_name_inv in Hreal as (H1 & H2 & H3 & _).
  revert Hl. unfold FS.lookup, FS.ENOENT, FS.ENAMETOOLONG, FS.os_error. rewrite Hc.
  destruct (FS.has_nul s); [done|]. destruct (String.eqb s ""); [done|].
  destruct (FS.PATH_MAX <=? FS.byte_length s); [done|].
  intros (-> & -> & Hd)%reach_named; try done. eauto.
Qed.

(** On a plain path string, [os.stat] sees the node at the resolved path. *)
Lemma stat_plain (st : FS.state) (s : string) :
  FS.wf st → FS.plain s = true → FS.stat st s = FS.nodes st !! FS.resolve st s.
Proof.
  intros Hwf Hplain. unfold FS.stat.
  destruct (FS.nodes st !! FS.resolve st s) as [n|] eqn:Hn.
  - pose proof (plain_not_root st s Hplain) as Hp.
    destruct (exists_last Hp) as (parent & name & Hpn).
    assert (FS.nodes st !! parent = Some FS.Dir) as Hpar.
    { destruct Hwf as [_ Hwf']. eapply Hwf'. by rewrite <- Hpn. }
    rewrite (lookup_plain st s parent name) by done.
    unfold FS.target. simpl. rewrite Hn. destruct n as [c|]; [|done].
    destruct (real_name_inv _ (plain_last _ Hplain)) as (H1 & _).
    by rewrite (proj2 (String.eqb_neq _ _) H1).
  - destruct (FS.lookup st s) as [[p h]|f] eqn:Hl; [|done].
    apply lookup_plain_ok in Hl as (-> & -> & _); [|done].
    unfold FS.target. simpl. by rewrite Hn.
Qed.

Lemma isdir_plain (s : string) (st : FS.state) :
  FS.wf st → FS.plain s = true →
  FS.isdir s st
  = (Ok (bool_decide (FS.nodes st !! FS.resolve st s = Some FS.Dir)), st).
Proof. intros Hwf Hplain. unfold FS.isdir. by rewrite stat_plain. Qed.

Lemma path_exists_plain (s : string) (st : FS.state) :
  FS.wf st → FS.plain s = true →
  FS.path_exists s st
  = (Ok (bool_decide (is_Some (FS.nodes st !! FS.resolve st s))), st).
Proof. intros Hwf Hplain. unfold FS.path_exists. by rewrite stat_plain. Qed.

Lemma rmtree_ok (s : string) (st st' : FS.state) :
  FS.rmtree s st = (Ok tt, st') →
  FS.resolve st s ≠ []
  ∧ (¬ FS.resolve st s `prefix_of` FS.cwd st → FS.cwd st' = FS.cwd st)
  ∧ FS.nodes st'
    = filter (fun kv => ¬ FS.resolve st s `prefix_of` kv.1) (FS.nodes st).
Proof.
  unfold FS.rmtree. intros H.
  destruct (FS.lookup st s) as [[p h]|f] eqn:Hl; [|done].
  apply lookup_resolve in Hl. subst p. simpl in H.
  destruct (FS.target st _) as [[|]|]; try done.
  destruct (FS.lookup _ s); [|done].
  destruct (String.eqb (FS.last_name s) "."); [done|].
  destruct (String.eqb (FS.last_name s) ".."); [done|].
  destruct (FS.resolve st s) eqn:Hp; [done|]. injection H as <-. simpl.
  split_and!; [done| |done]. intros Hout. by rewrite bool_decide_eq_false_2.
Qed.

Lemma rmtree_wf (s : string) (st st' : FS.state) :
  FS.wf st → FS.rmtree s st = (Ok tt, st') → FS.wf st'.
Proof.
  intros [Hroot Hwf] (Hne & _ & Hnodes)%rmtree_ok. split.
  - rewrite Hnodes. apply map_lookup_filter_Some. split; [done|].
    simpl. intros Hp. by apply prefix_nil_inv in Hp.
  - intros p name n. rewrite Hnodes.
    rewrite !map_lookup_filter_Some. simpl. intros [Hn Hp]. split.
    + by eapply Hwf.
    + intros Hpre. apply Hp. by apply prefix_app_r.
Qed.

(** After [rmtree], nothing is left at the path or below it. *)
Lemma rmtree_gone (s : string) (st st' : FS.state) (q : list string) :
  FS.rmtree s st = (Ok tt, st') → FS.resolve st s `prefix_of` q →
  FS.nodes st' !! q = None.
Proof.
  intros (_ & _ & ->)%rmtree_ok Hq.
  apply map_lookup_filter_None. right. intros n _. simpl. tauto.
Qed.

Lemma rmtree_other (s : string) (st st' : FS.state) (q : list string) :
  FS.rmtree s st = (Ok tt, st') → ¬ FS.resolve st s `prefix_of` q →
  FS.nodes st' !! q = FS.nodes st !! q.
Proof.
  intros (_ & _ & ->)%rmtree_ok Hq.
  destruct (FS.nodes st !! q) as [n|] eqn:Hn.
  - by apply map_lookup_filter_Some.
  - apply map_lookup_filter_None. by left.
Qed.

Lemma resolve_cwd (st st' : FS.state) (s : string) :
  FS.cwd st' = FS.cwd st → FS.resolve st' s = FS.resolve st s.
Proof. unfold FS.resolve. by intros ->. Qed.

(** A directory emptied: what is left of a well-formed file system. *)
Lemma emptied_wf (st : FS.state) (p : list string) :
  FS.wf st →
  FS.wf (FS.State (FS.cwd st)
           (filter (fun kv => kv.1 = p ∨ ¬ p `prefix_of` kv.1) (FS.nodes st))).
Proof.
  intros [Hroot Hwf]. split; simpl.
  - apply map_lookup_filter_Some. split; [done|]. simpl.
    destruct p; [by left|right]. by intros ?%prefix_nil_inv.
  - intros q name n. rewrite !map_lookup_filter_Some. simpl. intros [Hn Hq].
    split; [by eapply Hwf|]. right. intros Hpre.
    destruct Hq as [<-|Hq].
    + apply prefix_length in Hpre. rewrite length_app in Hpre. simpl in Hpre. lia.
    + apply Hq. by apply prefix_app_r.
Qed.

(** [rmtree] removes a directory named by a plain path string, the working
    directory not being inside it. *)
Lemma rmtree_plain (s : string) (st : FS.state) :
  FS.wf st → FS.settled st s →
  FS.nodes st !! FS.resolve st s = Some FS.Dir →
  FS.rmtree s st
  = (Ok tt,
     FS.State (FS.cwd st)
       (filter (fun kv => ¬ FS.resolve st s `prefix_of` kv.1) (FS.nodes st))).
Proof.
  intros Hwf [Hplain Hout] Hd. unfold FS.rmtree.
  pose proof (plain_not_root st s Hplain) as Hp.
  destruct (exists_last Hp) as (parent & name & Hpn).
  assert (FS.nodes st !! parent = Some FS.Dir) as Hpar.
  { destruct Hwf as [_ Hwf']. eapply Hwf'. by rewrite <- Hpn. }
  rewrite (lookup_plain st s parent name) by done.
  unfold FS.target. simpl. rewrite Hd, bool_decide_eq_false_2 by done.
  set (st1 := FS.State (FS.cwd st) _).
  assert (FS.lookup st1 s = Ok (FS.resolve st1 s, false)) as ->.
  { apply (lookup_plain st1 s parent name); [by apply emptied_wf|done|..].
    - by rewrite (resolve_cwd st).
    - unfold st1. simpl. apply map_lookup_filter_Some. split; [done|]. simpl.
      right. rewrite Hpn. intros Hpre%prefix_length.
      rewrite length_app in Hpre. simpl in Hpre. lia. }
  rewrite (last_name_plain _ Hplain).
  destruct (real_name_inv _ (plain_last _ Hplain)) as (_ & H2 & H3 & _).
  apply String.eqb_neq in H2, H3. rewrite H2, H3.
  by destruct (FS.resolve st s).
Qed.

Lemma grown_refl (p : list string) (st : FS.state) : grown p st st.
Proof. split; [done|]. intros q. by left. Qed.

Lemma grown_trans (p p' : list string) (st1 st2 st3 : FS.state) :
  p `prefix_of` p' → grown p st1 st2 → grown p' st2 st3 → grown p' st1 st3.
Proof.
  intros Hp [Hc1 H1] [Hc2 H2]. split; [congruence|]. intros q.
  destruct (H1 q) as [E1|(Hq1 & N1 & D1)], (H2 q) as [E2|(Hq2 & N2 & D2)].
  - left. congruence.
  - right. split_and!; [done|congruence|done].
  - right. split_and!; [by etrans|done|congruence].
  - congruence.
Qed.

(** A new entry in a directory that is there keeps the file system
    well-formed. *)
Lemma insert_wf (st : FS.state) (parent : list string) (name : string) (n : FS.node) :
  FS.wf st → FS.nodes st !! parent = Some FS.Dir →
  FS.nodes st !! (parent ++ [name]) ≠ Some FS.Dir →
  FS.wf (FS.State (FS.cwd st) (<[parent ++ [name] := n]> (FS.nodes st))).
Proof.
  intros [Hroot Hwf] Hpar Hnd. split; simpl.
  { rewrite lookup_insert_ne; [done|]. by destruct parent. }
  intros q nm n'. destruct (decide (parent ++ [name] = q ++ [nm])) as [E|E].
  - apply app_inj_tail in E as [<- <-]. intros _.
    rewrite lookup_insert_ne; [done|].
    intros E. apply (f_equal length) in E. rewrite length_app in E. simpl in E. lia.
  - rewrite lookup_insert_ne by done. intros Hn. pose proof (Hwf _ _ _ Hn) as Hq.
    destruct (decide (parent ++ [name] = q)) as [<-|E']; [congruence|].
    by rewrite lookup_insert_ne.
Qed.

Lemma mkdir_ok (s : string) (st st' : FS.state) :
  FS.wf st → FS.mkdir s st = (Ok tt, st') →
  FS.nodes st !! FS.resolve st s = None
  ∧ (∃ parent name, FS.resolve st s = parent ++ [name]
                    ∧ FS.nodes st !! parent = Some FS.Dir)
  ∧ st' = FS.State (FS.cwd st) (<[FS.resolve st s := FS.Dir]> (FS.nodes st)).
Proof.
  intros Hwf. unfold FS.mkdir.
  destruct (FS.lookup st s) as [[p h]|f] eqn:Hl; [|done].
  pose proof (lookup_resolve _ _ _ _ Hl) as ->. unfold FS.target. simpl.
  destruct (FS.nodes st !! FS.resolve st s) as [n|] eqn:Hn; [done|].
  destruct h; [done|]. intros [= <-]. split; [done|]. split; [|done].
  apply lookup_inv in Hl as [Hd|?]; [congruence|done..].
Qed.

Lemma mkdir_err (s : string) (st st' : FS.state) f :
  FS.mkdir s st = (Err f, st') → st' = st.
Proof.
  unfold FS.mkdir. destruct (FS.lookup st s); [|by intros [= _ <-]].
  destruct (FS.target st _); [by intros [= _ <-]|done].
Qed.

Lemma mkdir_exist_ok_spec (s : string) (st st' : FS.state) r :
  FS.mkdir_exist_ok s st = (r, st') →
  (st' = st ∧ (r = Ok tt → FS.stat st s = Some FS.Dir)
   ∧ (FS.stat st s ≠ Some FS.Dir → ∃ f, FS.mkdir s st = (Err f, st) ∧ r = Err f))
  ∨ (r = Ok tt ∧ FS.mkdir s st = (Ok tt, st')).
Proof.
  unfold FS.mkdir_exist_ok, try_except.
  destruct (FS.mkdir s st) as [[[]|f] st1] eqn:Hmk.
  - intros [= <- <-]. by right.
  - apply mkdir_err in Hmk as ->. unfold mbind, M_bind, bind, FS.isdir.
    case_bool_decide; intros [= <- <-]; left; (split; [done|]).
    + done.
    + split; [done|]. intros _. by exists f.
Qed.

Lemma mkdir_exist_ok_grown (s : string) (st st' : FS.state) r :
  FS.wf st → FS.mkdir_exist_ok s st = (r, st') →
  FS.wf st' ∧ grown (FS.resolve st s) st st'
  ∧ (FS.plain s = true → r = Ok tt →
     FS.nodes st' !! FS.resolve st s = Some FS.Dir).
Proof.
  intros Hwf [(-> & Hd & _)|[-> Hmk]]%mkdir_exist_ok_spec.
  { split_and!; [done|apply grown_refl|]. intros Hplain Hr.
    rewrite <- stat_plain by done. by apply Hd. }
  apply mkdir_ok in Hmk as (Hnone & (parent & name & Hp & Hpar) & ->); [|done].
  split_and!.
  - rewrite Hp. apply insert_wf; [done..|]. rewrite <- Hp. congruence.
  - split; [done|]. intros q. simpl.
    destruct (decide (FS.resolve st s = q)) as [<-|E].
    + right. by rewrite lookup_insert_eq.
    + left. by rewrite lookup_insert_ne.
  - intros _ _. simpl. by rewrite lookup_insert_eq.
Qed.

Lemma makedirs_from_cons (x tail head tail2 : string)
    (heads : list (string * string)) (name : string) :
  FS.makedirs_from ((x, tail) :: (head, tail2) :: heads) name
  = (b ← FS.path_exists head;
     if b : bool then FS.mkdir_exist_ok name
     else
       _ ← try_except (FS.makedirs_from ((head, tail2) :: heads) head)
              (fun f => if FS.is_file_exists f then mret tt else raise f);
       if String.eqb tail "." then mret tt else FS.mkdir_exist_ok name).
Proof. done. Qed.

(** [makedirs] on a plain path string only adds directories, on the way
    down to the path it names. *)
Lemma makedirs_from_grown (l : list string) (st st' : FS.state) r :
  FS.wf st → FS.plain (FS.unsplit l) = true → FS.components (FS.unsplit l) = l →
  FS.makedirs_from (FS.stages (rev l)) (FS.unsplit l) st = (r, st') →
  FS.wf st' ∧ grown (FS.resolve st (FS.unsplit l)) st st'
  ∧ (r = Ok tt → FS.nodes st' !! FS.resolve st (FS.unsplit l) = Some FS.Dir).
Proof.
  revert st st' r. induction l as [|c l0 IH] using rev_ind;
    intros st st' r Hwf Hplain Hcomp; [done|].
  set (s := FS.unsplit (l0 ++ [c])) in *.
  destruct (plain_head st s l0 c Hplain Hcomp)
    as (Hc & Hst & parent & Hp & Hhead).
  rewrite Hcomp in Hst. rewrite Hst.
  assert (∀ st0 r0 st0', FS.wf st0 → FS.cwd st0 = FS.cwd st →
            FS.mkdir_exist_ok s st0 = (r0, st0') →
            FS.wf st0' ∧ grown (FS.resolve st s) st0 st0'
            ∧ (r0 = Ok tt → FS.nodes st0' !! FS.resolve st s = Some FS.Dir))
    as Hlast.
  { intros st0 r0 st0' Hwf0 Hcwd0 Hmk.
    apply mkdir_exist_ok_grown in Hmk as (? & ? & Hd); [|done].
    rewrite (resolve_cwd st st0) in * by done. split_and!; [done..|]. by apply Hd. }
  destruct Hhead as [Hnil|(Hpl0 & Hcl0 & (t & heads & Hst0) & Hpar)].
  { rewrite Hnil. simpl. by apply Hlast. }
  rewrite Hst0, makedirs_from_cons, <- Hst0.
  unfold mbind, M_bind, bind at 1. unfold FS.path_exists at 1.
  destruct (bool_decide _); [by apply Hlast|].
  unfold mbind, M_bind, bind at 1. unfold try_except at 1.
  destruct (FS.makedirs_from _ _ st) as [r1 st1] eqn:Hrec.
  destruct (IH _ _ _ Hwf Hpl0 Hcl0 Hrec) as (Hwf1 & Hg1 & _).
  assert (FS.resolve st (FS.unsplit l0) `prefix_of` FS.resolve st s) as Hpre.
  { rewrite Hp, Hpar. by apply prefix_app_r. }
  assert (∀ r0, FS.mkdir_exist_ok s st1 = (r0, st') →
            FS.wf st' ∧ grown (FS.resolve st s) st st'
            ∧ (r0 = Ok tt → FS.nodes st' !! FS.resolve st s = Some FS.Dir))
    as Hstep.
  { intros r0 Hmk. destruct Hg1 as [Hcwd1 Hg1'].
    destruct (Hlast _ _ _ Hwf1 Hcwd1 Hmk) as (Hwf2 & Hg2 & Hd).
    split_and!; [done| |done]. eapply grown_trans; [exact Hpre| |exact Hg2].
    by split. }
  pose proof (real_name_inv _ Hc) as (_ & Hdot%String.eqb_neq & _).
  rewrite Hdot.
  destruct r1 as [[]|f]; [by apply Hstep|].
  destruct (FS.is_file_exists f); [by apply Hstep|].
  intros [= <- <-]. split_and!; [done| |done].
  eapply grown_trans; [exact Hpre|exact Hg1|apply grown_refl].
Qed.

Lemma makedirs_grown (s : string) (st st' : FS.state) r :
  FS.wf st → FS.plain s = true → FS.makedirs s st = (r, st') →
  FS.wf st' ∧ grown (FS.resolve st s) st st'
  ∧ (r = Ok tt → FS.nodes st' !! FS.resolve st s = Some FS.Dir).
Proof.
  intros Hwf Hplain. unfold FS.makedirs.
  pose proof (makedirs_from_grown (FS.components s) st st' r Hwf) as H.
  rewrite unsplit_components in H. by apply H.
Qed.

(** When the directory above is there, [makedirs] on a plain path string
    is one [mkdir]. *)
Lemma makedirs_parent (s : string) (st : FS.state) (parent : list string)
    (name : string) :
  FS.wf st → FS.plain s = true →
  FS.resolve st s = parent ++ [name] → FS.nodes st !! parent = Some FS.Dir →
  FS.makedirs s st = FS.mkdir_exist_ok s st.
Proof.
  intros Hwf Hplain Hpn Hpar. unfold FS.makedirs.
  destruct (plain_snoc _ Hplain) as (l0 & c & Hcomp & _).
  destruct (plain_head st s l0 c Hplain Hcomp)
    as (Hc & Hst & parent' & Hp & Hhead).
  rewrite Hst.
  destruct Hhead as [Hnil|(Hpl0 & Hcl0 & (t & heads & Hst0) & Hpar')].
  { by rewrite Hnil. }
  rewrite Hst0, makedirs_from_cons.
  unfold mbind, M_bind, bind at 1.
  rewrite (path_exists_plain _ _ Hwf Hpl0), Hpar'.
  rewrite Hpn in Hp. apply app_inj_tail in Hp as [<- _].
  by rewrite Hpar, bool_decide_eq_true_2.
Qed.

Lemma makedirs_make (s : string) (st : FS.state) (parent : list string)
    (name : string) :
  FS.wf st → FS.plain s = true →
  FS.resolve st s = parent ++ [name] → FS.nodes st !! parent = Some FS.Dir →
  FS.nodes st !! FS.resolve st s = None →
  FS.makedirs s st
  = (Ok tt, FS.State (FS.cwd st) (<[FS.resolve st s := FS.Dir]> (FS.nodes st))).
Proof.
  intros Hwf Hplain Hpn Hpar Hnone.
  rewrite (makedirs_parent s st parent name) by done.
  unfold FS.mkdir_exist_ok, try_except, FS.mkdir.
  rewrite (lookup_plain st s parent name) by done.
  unfold FS.target. simpl. by rewrite Hnone.
Qed.

(** A regular file with the name of the directory makes [makedirs] fail. *)
Lemma makedirs_file (s : string) (st : FS.state) (c : list Byte.byte) :
  FS.wf st → FS.plain s = true →
  FS.nodes st !! FS.resolve st s = Some (FS.File c) →
  ∃ e, FS.makedirs s st = (Err (Raised e), st) ∧ exn_class e = "FileExistsError".
Proof.
  intros Hwf Hplain Hf.
  pose proof (plain_not_root st s Hplain) as Hp.
  destruct (exists_last Hp) as (parent & name & Hpn).
  assert (FS.nodes st !! parent = Some FS.Dir) as Hpar.
  { destruct Hwf as [_ Hwf']. eapply Hwf'. by rewrite <- Hpn. }
  rewrite (makedirs_parent s st parent name) by done.
  unfold FS.mkdir_exist_ok, try_except, FS.mkdir.
  rewrite (lookup_plain st s parent name) by done.
  unfold FS.target. simpl. rewrite Hf. unfold FS.EEXIST, FS.os_error.
  unfold mbind, M_bind, bind. rewrite (isdir_plain _ _ Hwf Hplain), Hf.
  rewrite bool_decide_eq_false_2 by done. eexists. split; reflexivity.
Qed.

(** ** The clear-data route *)

Lemma settled_cwd (st st' : FS.state) (s : string) :
  FS.cwd st' = FS.cwd st → FS.settled st s → FS.settled st' s.
Proof.
  intros Hcwd [Hplain Hout]. split; [done|].
  by rewrite (resolve_cwd st st'), Hcwd.
Qed.

(** One directory of [clear_data]: removed if it is there, then made. *)
Lemma clear_one_dir (s : string) (st st1 st2 : FS.state) (b : bool) :
  FS.wf st → FS.settled st s →
  FS.isdir s st = (Ok b, st) →
  (if b then FS.rmtree s else mret tt) st = (Ok tt, st1) →
  FS.makedirs s st1 = (Ok tt, st2) →
  FS.wf st2 ∧ FS.cwd st2 = FS.cwd st
  ∧ FS.empty_dir st2 (FS.resolve st s)
  ∧ ∀ q, ¬ FS.resolve st s `prefix_of` q → ¬ q `prefix_of` FS.resolve st s →
         FS.nodes st2 !! q = FS.nodes st !! q.
Proof.
  intros Hwf [Hplain Hout] Hb Hrm Hmk. set (p := FS.resolve st s) in *.
  assert (FS.wf st1 ∧ FS.cwd st1 = FS.cwd st
          ∧ (∀ q, p `prefix_of` q → FS.nodes st1 !! q = None)
          ∧ (∀ q, ¬ p `prefix_of` q → FS.nodes st1 !! q = FS.nodes st !! q))
    as (Hwf1 & Hcwd1 & Hgone & Hother).
  { destruct b.
    - split_and!.
      + by eapply rmtree_wf.
      + apply rmtree_ok in Hrm as (_ & Hcwd & _). by apply Hcwd.
      + intros q. by apply rmtree_gone.
      + intros q. by apply rmtree_other.
    - injection Hrm as <-. split_and!; [done..| |done].
      assert (FS.nodes st !! p = None) as Hnone.
      { rewrite (isdir_plain _ _ Hwf Hplain) in Hb. injection Hb as Hb.
        apply bool_decide_eq_false in Hb. fold p in Hb.
        apply makedirs_grown in Hmk as (_ & [_ Hg] & Hd); [|done..].
        fold p in Hg, Hd. destruct (Hg p) as [E|(_ & ? & _)]; [|done].
        rewrite (Hd eq_refl) in E. congruence. }
      intros q. by apply wf_missing_below. }
  apply makedirs_grown in Hmk as (Hwf2 & [Hcwd2 Hg] & Hd); [|done..].
  rewrite (resolve_cwd st st1) in Hg, Hd by done. fold p in Hg, Hd.
  split_and!; [done|congruence| |].
  - split; [by apply Hd|]. intros q Hpq Hne.
    destruct (Hg q) as [->|(Hqp & _)]; [by apply Hgone|].
    destruct Hne. by apply (anti_symm prefix).
  - intros q Hpq Hqp.
    destruct (Hg q) as [->|(? & _)]; [by apply Hother|done].
Qed.

(** What one directory of [clear_data] does to the paths outside it. *)
Lemma clear_one_dir_frame (s : string) (st st1 st2 : FS.state) (b : bool)
    (q : list string) :
  FS.wf st → FS.settled st s →
  FS.isdir s st = (Ok b, st) →
  (if b then FS.rmtree s else mret tt) st = (Ok tt, st1) →
  FS.makedirs s st1 = (Ok tt, st2) →
  ¬ FS.resolve st s `prefix_of` q →
  FS.nodes st2 !! q = FS.nodes st !! q
  ∨ (q `prefix_of` FS.resolve st s ∧ FS.nodes st !! q = None
     ∧ FS.nodes st2 !! q = Some FS.Dir).
Proof.
  intros Hwf [Hplain Hout] Hb Hrm Hmk Hq.
  assert (FS.wf st1 ∧ FS.cwd st1 = FS.cwd st
          ∧ FS.nodes st1 !! q = FS.nodes st !! q) as (Hwf1 & Hcwd1 & Hsame).
  { destruct b.
    - split_and!; [by eapply rmtree_wf| |by apply (rmtree_other s)].
      apply rmtree_ok in Hrm as (_ & Hcwd & _). by apply Hcwd.
    - by injection Hrm as <-. }
  apply makedirs_grown in Hmk as (_ & [_ Hg] & _); [|done..].
  rewrite (resolve_cwd st st1) in Hg by done.
  destruct (Hg q) as [->|(? & Hn & ?)]; [by left|]. right. by rewrite <- Hsame.
Qed.

(** The steps of a [clear_data] that completes. *)
Lemma clear_data_steps {W Hit Stats Time : Type} (core : Core W Hit Stats Time)
    (st st' : FS.state) (resp : clear_response) :
  clear_data core st = (Ok resp, st') →
  ∃ b1 st1 st2 b2 st3,
    FS.isdir (DATA_DIR core) st = (Ok b1, st)
    ∧ (if b1 then FS.rmtree (DATA_DIR core) else mret tt) st = (Ok tt, st1)
    ∧ FS.makedirs (DATA_DIR core) st1 = (Ok tt, st2)
    ∧ FS.isdir (ARTIFACTS_DIR core) st2 = (Ok b2, st2)
    ∧ (if b2 then FS.rmtree (ARTIFACTS_DIR core) else mret tt) st2 = (Ok tt, st3)
    ∧ FS.makedirs (ARTIFACTS_DIR core) st3 = (Ok tt, st')
    ∧ resp = ClearResponse true.
Proof.
  unfold clear_data, mbind, M_bind, bind.
  destruct (FS.isdir (DATA_DIR core) st) as [[b1|?] st0] eqn:Hb1; [|done].
  assert (st0 = st) as -> by (unfold FS.isdir in Hb1; congruence).
  destruct ((if b1 then FS.rmtree (DATA_DIR core) else mret tt) st)
    as [[[]|?] st1] eqn:Hrm1; [|done].
  destruct (FS.makedirs (DATA_DIR core) st1) as [[[]|?] st2] eqn:Hmk1; [|done].
  destruct (FS.isdir (ARTIFACTS_DIR core) st2) as [[b2|?] st0] eqn:Hb2; [|done].
  assert (st0 = st2) as -> by (unfold FS.isdir in Hb2; congruence).
  destruct ((if b2 then FS.rmtree (ARTIFACTS_DIR core) else mret tt) st2)
    as [[[]|?] st3] eqn:Hrm2; [|done].
  destruct (FS.makedirs (ARTIFACTS_DIR core) st3) as [[[]|?] st4] eqn:Hmk2; [|done].
  intros [= <- <-]. exists b1, st1, st2, b2, st3. split_and!; done.
Qed.

(** What a [clear_data] that completes has established. *)
Lemma clear_data_outcome {W Hit Stats Time : Type} (core : Core W Hit Stats Time)
    (st st' : FS.state) (resp : clear_response) :
  FS.wf st →
  FS.settled st (DATA_DIR core) → FS.settled st (ARTIFACTS_DIR core) →
  (FS.resolve st (DATA_DIR core) `prefix_of` FS.resolve st (ARTIFACTS_DIR core) →
   FS.resolve st (DATA_DIR core) = FS.resolve st (ARTIFACTS_DIR core)) →
  (FS.resolve st (ARTIFACTS_DIR core) `prefix_of` FS.resolve st (DATA_DIR core) →
   FS.resolve st (ARTIFACTS_DIR core) = FS.resolve st (DATA_DIR core)) →
  clear_data core st = (Ok resp, st') →
  FS.wf st' ∧ FS.cwd st' = FS.cwd st
  ∧ resp = ClearResponse true
  ∧ FS.empty_dir st' (FS.resolve st (DATA_DIR core))
  ∧ FS.empty_dir st' (FS.resolve st (ARTIFACTS_DIR core)).
Proof.
  intros Hwf Hsd Hsa Hda Had
    (b1 & st1 & st2 & b2 & st3 & Hb1 & Hrm1 & Hmk1 & Hb2 & Hrm2 & Hmk2 & ->)
    %clear_data_steps.
  destruct (clear_one_dir _ _ _ _ _ Hwf Hsd Hb1 Hrm1 Hmk1) as (Hwf2 & Hcwd2 & Hd2 & _).
  pose proof (settled_cwd st st2 _ Hcwd2 Hsa) as Hsa2.
  destruct (clear_one_dir _ _ _ _ _ Hwf2 Hsa2 Hb2 Hrm2 Hmk2)
    as (Hwf4 & Hcwd4 & Ha4 & Hfr).
  rewrite (resolve_cwd st st2) in Ha4, Hfr by done.
  set (d := FS.resolve st (DATA_DIR core)) in *.
  set (a := FS.resolve st (ARTIFACTS_DIR core)) in *.
  split_and!; [done|congruence|done| |done].
  destruct (decide (d = a)) as [->|Hne]; [done|].
  assert (∀ q, d `prefix_of` q → ¬ a `prefix_of` q ∧ ¬ q `prefix_of` a) as Hun.
  { intros q Hdq. split.
    - intros Haq. destruct (prefix_weak_total _ _ _ Hdq Haq); naive_solver.
    - intros Hqa. apply Hne, Hda. by etrans. }
  destruct Hd2 as [Hdir Hempty]. split.
  - rewrite Hfr; [done|by apply Hun..].
  - intros q Hdq Hq. rewrite Hfr; [by apply Hempty|by apply Hun..].
Qed.


(** ** The upload route *)

(** A walk along a path string whose last component is a name ends at the
    entry of that name in a directory that is there. *)
Lemma lookup_named (st : FS.state) (s : string) (p : list string) (h : bool) :
  FS.last_component s ≠ "" → FS.last_component s ≠ "." →
  FS.last_component s ≠ ".." →
  FS.lookup st s = Ok (p, h) →
  p = FS.resolve st s ∧ h = false
  ∧ ∃ parent, p = parent ++ [FS.last_component s]
              ∧ FS.nodes st !! parent = Some FS.Dir.
Proof.
  intros H1 H2 H3 Hl. pose proof (lookup_resolve _ _ _ _ Hl) as Hp.
  split; [done|]. revert Hl H1 H2 H3. unfold FS.last_component.
  destruct (last (FS.components s)) as [c|] eqn:Hc; [|done]. simpl.
  apply last_Some in Hc as [init Hc].
  unfold FS.lookup, FS.ENOENT, FS.ENAMETOOLONG, FS.os_error. rewrite Hc.
  destruct (FS.has_nul s); [done|]. destruct (String.eqb s ""); [done|].
  destruct (FS.PATH_MAX <=? FS.byte_length s); [done|].
  intros Hr H1 H2 H3. apply reach_named in Hr as (-> & -> & Hd); eauto.
Qed.

Lemma write_file_spec (s : string) (c : list Byte.byte) (st st' : FS.state) r :
  FS.write_file s c st = (r, st') →
  (r = Ok tt
   ∧ st' = FS.State (FS.cwd st) (<[FS.resolve st s := FS.File c]> (FS.nodes st)))
  ∨ ((∃ f, r = Err f) ∧ st' = st).
Proof.
  unfold FS.write_file, FS.EISDIR, FS.os_error.
  destruct (FS.lookup st s) as [[p h]|f] eqn:Hl; intros H.
  - apply lookup_resolve in Hl. subst p.
    repeat (case_match; simplify_eq/=); eauto.
  - simplify_eq/=; eauto.
Qed.

(** A write that fails raises [ValueError] or an error of the operating
    system, never an [HTTPException]. *)
Lemma write_file_error (s : string) (c : list Byte.byte) (st st' : FS.state) f :
  FS.write_file s c st = (Err f, st') →
  ∃ e, f = Raised e
       ∧ exn_class e ∈ ["ValueError"; "FileNotFoundError"; "NotADirectoryError";
                        "IsADirectoryError"; "OSError"].
Proof.
  unfold FS.write_file, FS.EISDIR, FS.os_error.
  destruct (FS.lookup st s) as [[p h]|f0] eqn:Hl; intros H.
  - repeat (case_match; simplify_eq/=); eexists; (split; [done|]); simpl;
      repeat first [apply list_elem_of_here|apply list_elem_of_further].
  - apply lookup_err in Hl as (e & -> & He). simplify_eq/=.
    exists e. split; [done|]. revert He. rewrite !elem_of_cons. tauto.
Qed.

Lemma write_file_raises (s : string) (c : list Byte.byte) (st st' : FS.state) f :
  FS.write_file s c st = (Err f, st') → ∃ e, f = Raised e.
Proof. intros (e & -> & _)%write_file_error. eauto. Qed.



Lemma last_component_join (dir name : string) :
  plain_name name → FS.last_component (Py.join dir name) = name.
Proof.
  intros Hp. pose proof Hp as (Hsep & Hne & _).
  unfold Py.join, FS.last_component. rewrite (startswith_sep_no_sep _ Hsep).
  destruct (String.eqb_spec dir "") as [->|Hdir]; cbn [orb].
  { change ("" +:+ name) with name. by rewrite components_single. }
  destruct (Py.endswith_sep dir) eqn:Hend.
  - apply endswith_sep_inv in Hend as [dir' ->].
    by rewrite app_sep_assoc, components_app_sep, last_snoc.
  - by rewrite components_app_sep, last_snoc.
Qed.

(** A write into a directory that is missing fails and changes nothing. *)
Lemma write_file_missing_dir (dir name : string) (c : list Byte.byte)
    (st st' : FS.state) r :
  plain_name name → FS.nodes st !! FS.resolve st dir = None →
  FS.write_file (Py.join dir name) c st = (r, st') →
  ∃ e, r = Err (Raised e) ∧ st' = st
       ∧ exn_class e ∈ ["ValueError"; "FileNotFoundError"; "NotADirectoryError";
                        "OSError"].
Proof.
  intros Hp Hnone. pose proof Hp as (_ & H1 & H2 & H3).
  unfold FS.write_file. rewrite (last_component_join _ _ Hp).
  apply String.eqb_neq in H1, H2, H3. rewrite H1, H2, H3. simpl.
  destruct (FS.lookup st _) as [[p h]|f] eqn:Hl.
  - apply lookup_named in Hl as (Hpj & _ & parent & Hpn & Hpar);
      rewrite ?(last_component_join _ _ Hp); try by apply String.eqb_neq.
    rewrite (last_component_join _ _ Hp) in Hpn.
    rewrite Hpj, (resolve_join_plain st _ _ Hp) in Hpn.
    apply app_inj_tail in Hpn as [<- _]. congruence.
  - apply lookup_err in Hl as (e & -> & He). intros [= <- <-]. by exists e.
Qed.

Section UploadFacts.
Context {W Hit Stats Time : Type} (core : Core W Hit Stats Time).

Lemma accepted_inv (uf : upload_file) :
  accepted core uf = true →
  upload_name uf ≠ "" ∧ upload_ext uf ∈ ALLOWED_EXTS core.
Proof.
  unfold accepted. intros [H1 H2]%andb_true_iff. split.
  - apply negb_true_iff in H1. by apply String.eqb_neq.
  - by apply bool_decide_eq_true in H2.
Qed.

(** With real extensions only, an accepted name is a plain one. *)
Lemma accepted_plain (uf : upload_file) :
  accepted core uf = true → "" ∉ ALLOWED_EXTS core → plain_name (upload_name uf).
Proof.
  intros [Hne Hext]%accepted_inv Hreal. unfold plain_name.
  split_and!; [apply basename_no_sep|done|..];
    intros Hn; apply Hreal; unfold upload_ext in Hext; by rewrite Hn in Hext.
Qed.

Lemma upload_loop_spec (files : list upload_file) (saved0 : list saved_file)
    (st st' : FS.state) r :
  upload_loop core files saved0 st = (r, st') →
  FS.cwd st' = FS.cwd st
  ∧ (∀ p, FS.nodes st' !! p ≠ FS.nodes st !! p →
          ∃ uf, uf ∈ files ∧ accepted core uf = true
                ∧ p = FS.resolve st (Py.join (DATA_DIR core) (upload_name uf))
                ∧ FS.nodes st' !! p = Some (FS.File (content uf)))
  ∧ (∀ saved, r = Ok saved →
              saved = saved0 ++ (saved_entry <$> List.filter (accepted core) files)).
Proof.
  revert saved0 st. induction files as [|uf files IH]; intros saved0 st; simpl.
  { intros [= <- <-]. split_and!; [done|done|].
    intros saved [= <-]. by rewrite (right_id_L [] (++)). }
  destruct (accepted core uf) eqn:Hacc; simpl.
  - unfold mbind, M_bind, bind.
    destruct (FS.write_file _ _ st) as [r1 st1] eqn:Hw.
    apply write_file_spec in Hw as [[-> ->]|[[f ->] ->]].
    + intros H. apply IH in H as (Hcwd & Hch & Hsaved). simpl in *.
      split_and!; [done| |].
      * intros p Hp.
        destruct (decide (FS.nodes st' !! p
                          = <[FS.resolve st (Py.join (DATA_DIR core) (upload_name uf))
                              := FS.File (content uf)]> (FS.nodes st) !! p)) as [E|E].
        -- exists uf. rewrite E in Hp |- *.
           destruct (decide (FS.resolve st (Py.join (DATA_DIR core) (upload_name uf)) = p))
             as [<-|Hne]; [|by rewrite lookup_insert_ne in Hp].
           rewrite lookup_insert_eq. split_and!; [apply list_elem_of_here|done..].
        -- destruct (Hch p E) as (uf' & Hin & Hacc' & -> & Hn).
           exists uf'. split_and!; [by apply list_elem_of_further|done|done|done].
      * intros saved Hs. rewrite (Hsaved saved Hs), <- (assoc_L (++)). done.
    + intros [= <- <-]. split_and!; [done|done|]. intros saved [=].
  - intros H. apply IH in H as (Hcwd & Hch & Hsaved).
    split_and!; [done| |done].
    intros p Hp. destruct (Hch p Hp) as (uf' & Hin & ?).
    exists uf'. split; [by apply list_elem_of_further|done].
Qed.

Lemma upload_loop_none (files : list upload_file) (saved0 : list saved_file)
    (st st' : FS.state) r :
  List.filter (accepted core) files = [] →
  upload_loop core files saved0 st = (r, st') →
  r = Ok saved0 ∧ st' = st.
Proof.
  revert saved0 st. induction files as [|uf files IH]; intros saved0 st; simpl.
  { by intros _ [= <- <-]. }
  destruct (accepted core uf); [done|]. simpl. apply IH.
Qed.

Lemma upload_loop_final (files : list upload_file) (saved0 sv : list saved_file)
    (st st' : FS.state) (p : list string) :
  upload_loop core files saved0 st = (Ok sv, st') →
  FS.nodes st' !! p
  = match last (written_to core st p files) with
    | Some uf => Some (FS.File (content uf))
    | None => FS.nodes st !! p
    end.
Proof.
  revert saved0 st. induction files as [|uf files IH]; intros saved0 st; simpl.
  { by intros [= <- <-]. }
  unfold written_to in *. simpl.
  destruct (accepted core uf) eqn:Hacc; simpl; [|by apply IH].
  unfold mbind, M_bind, bind.
  destruct (FS.write_file _ _ st) as [r1 st1] eqn:Hw.
  apply write_file_spec in Hw as [[-> ->]|[[f ->] ->]]; [|done].
  intros H. apply IH in H. rewrite H. clear H.
  change (FS.resolve (FS.State (FS.cwd st) ?m)) with (FS.resolve st).
  fold (upload_dest core uf).
  set (rest := List.filter _ files).
  case_bool_decide as Hp; simpl.
  - rewrite last_cons. destruct (last rest); [done|].
    rewrite Hp. by rewrite lookup_insert_eq.
  - destruct (last rest); [done|]. by rewrite lookup_insert_ne.
Qed.


End UploadFacts.

(** ** The file routes on a small file system *)

Lemma wfb_sound (st : FS.state) : FS.wfb st = true → FS.wf st.
Proof.
  unfold FS.wfb. intros [Hroot Hall]%andb_true_iff. split.
  { by apply bool_decide_eq_true in Hroot. }
  intros p name n Hn. rewrite forallb_forall in Hall.
  apply elem_of_map_to_list, list_elem_of_In, Hall in Hn. simpl in Hn.
  rewrite rev_app_distr in Hn. simpl in Hn.
  apply bool_decide_eq_true in Hn. by rewrite rev_involutive in Hn.
Qed.


(** With the artifacts directory inside the data directory, the data
    directory is not empty after [clear_data]: it holds the artifacts
    directory. *)
Example clear_data_nested_dirs :
  ∃ st',
    clear_data Demo.nested Demo.fs = (Ok (ClearResponse true), st')
    ∧ FS.nodes st' !! ["data"; "artifacts"] = Some FS.Dir.
Proof. eexists. split; reflexivity. Qed.


(** ** The chunker of the specification *)

Lemma windows_spec (fuel n size step start : nat) :
  (0 < step)%nat → (n - start < fuel)%nat →
  (∀ i w, CoreSpec.windows fuel n size step start !! i = Some w →
          w = ((start + i * step)%nat, Nat.min (start + i * step + size) n)
          ∧ (S i < length (CoreSpec.windows fuel n size step start) →
             start + i * step + size < n)%nat)
  ∧ ∃ w, last (CoreSpec.windows fuel n size step start) = Some w
         ∧ (n ≤ w.1 + size)%nat.
Proof.
  intros Hstep. revert start. induction fuel as [|fuel IH]; intros start Hfuel;
    [lia|]. simpl.
  destruct (Nat.leb_spec n (start + size)) as [Hend|Hmore].
  - split.
    + intros [|i] w Hw; simplify_eq/=. split; [|lia].
      f_equal; [lia|]. f_equal. lia.
    + eexists. split; [done|]. simpl. lia.
  - destruct (IH (start + step)%nat) as (Hlk & w' & Hlast & Hw'); [lia|]. split.
    + intros [|i] w Hw; simplify_eq/=.
      * split; [|lia]. f_equal; [lia|]. f_equal. lia.
      * destruct (Hlk i w Hw) as [-> Hfull]. split.
        -- f_equal; [lia|]. f_equal. lia.
        -- intros Hlen. lia.
    + exists w'. split; [|done].
      destruct (CoreSpec.windows fuel n size step (start + step)); [done|].
      done.
Qed.

Lemma last_imap {A B} (f : nat → A → B) (l : list A) (x : A) :
  last l = Some x → ∃ i, last (imap f l) = Some (f i x).
Proof.
  revert f. induction l as [|x0 [|x1 l] IH]; intros f Hl; simplify_eq/=.
  - by exists 0%nat.
  - destruct (IH (f ∘ S) Hl) as [i Hi]. exists (S i). exact Hi.
Qed.

Lemma offsets_imap (text : string) (ws : list (nat * nat)) :
  CoreSpec.offsets
    (imap (fun i w => CoreSpec.MkChunk w.1 w.2 (CoreSpec.chunk_text_at text w) i) ws)
  = ws.
Proof.
  unfold CoreSpec.offsets. apply list_eq. intros i.
  rewrite list_lookup_fmap, list_lookup_imap.
  by destruct (ws !! i) as [[a b]|].
Qed.

(** C3: for positive [chunk_size] and [overlap] with [overlap < chunk_size],
    chunking returns chunks such that chunk [i] starts at [i * (chunk_size -
    overlap)], stops [chunk_size] characters later or at the end of the text,
    whichever comes first, and holds the text between; every chunk but the
    last is [chunk_size] long and the last stops at the end of the text.  For
    a text of 3000 characters, [chunk_size = 1200] and [overlap = 200] the
    offset ranges are 0-1200, 1000-2200 and 2000-3000. *)
Theorem chunk_slides_window (text : string) (chunk_size overlap : Z) :
  0 < overlap < chunk_size →
  ∃ cs,
    CoreSpec.chunk text chunk_size overlap = Ok cs
    ∧ (∀ i c, cs !! i = Some c →
         CoreSpec.chunk_seq c = i
         ∧ Z.of_nat (CoreSpec.chunk_start c) = Z.of_nat i * (chunk_size - overlap)
         ∧ Z.of_nat (CoreSpec.chunk_stop c)
           = Z.min (Z.of_nat (CoreSpec.chunk_start c) + chunk_size)
               (Z.of_nat (String.length text))
         ∧ CoreSpec.chunk_text c
           = String.substring (CoreSpec.chunk_start c)
               (CoreSpec.chunk_stop c - CoreSpec.chunk_start c) text)
    ∧ (∀ i c, cs !! i = Some c → (S i < length cs)%nat →
         Z.of_nat (CoreSpec.chunk_stop c)
         = Z.of_nat (CoreSpec.chunk_start c) + chunk_size)
    ∧ (∃ c, last cs = Some c
            ∧ CoreSpec.chunk_stop c = String.length text)
    ∧ (String.length text = 3000%nat → chunk_size = 1200 → overlap = 200 →
       CoreSpec.offsets cs
       = [(0, 1200); (1000, 2200); (2000, 3000)]%nat).
Proof.
  intros [Ho Hc]. unfold CoreSpec.chunk.
  assert ((0 <? chunk_size) && (0 <? overlap) && (overlap <? chunk_size) = true)
    as -> by (rewrite !andb_true_iff, !Z.ltb_lt; lia).
  eexists. split; [reflexivity|].
  set (n := String.length text). set (size := Z.to_nat chunk_size).
  set (step := Z.to_nat (chunk_size - overlap)).
  destruct (windows_spec (S n) n size step 0) as (Hlk & w & Hlast & Hw);
    [lia|lia|].
  set (ws := CoreSpec.windows (S n) n size step 0) in *.
  split_and!.
  - intros i c Hi. rewrite list_lookup_imap in Hi.
    destruct (ws !! i) as [w0|] eqn:Hw0; simplify_eq/=.
    destruct (Hlk i w0 Hw0) as [-> _]. simpl.
    split_and!; [done|lia|lia|done].
  - intros i c Hi Hlen. rewrite list_lookup_imap in Hi. rewrite length_imap in Hlen.
    destruct (ws !! i) as [w0|] eqn:Hw0; simplify_eq/=.
    destruct (Hlk i w0 Hw0) as [-> Hfull]. simpl. specialize (Hfull Hlen). lia.
  - destruct (last_imap (fun i w => CoreSpec.MkChunk w.1 w.2
                                      (CoreSpec.chunk_text_at text w) i) ws w Hlast)
      as [k Hk].
    eexists. split; [exact Hk|]. simpl.
    apply last_Some in Hlast as [ws' Hws'].
    assert (ws !! length ws' = Some w) as Hi.
    { rewrite Hws'. by apply list_lookup_middle. }
    destruct (Hlk _ w Hi) as [Hweq _]. rewrite Hweq in Hw |- *. simpl in *. lia.
  - intros Hn -> ->. rewrite offsets_imap. subst ws n size step. rewrite Hn.
    vm_compute. reflexivity.
Qed.

Lemma chunk_slides_window_witness :
  ∃ cs,
    CoreSpec.chunk "hello world" 4 1 = Ok cs
    ∧ CoreSpec.offsets cs = [(0, 4); (3, 7); (6, 10); (9, 11)]%nat
    ∧ CoreSpec.chunk_text <$> cs = ["hell"; "lo w"; "worl"; "ld"].
Proof.
  destruct (chunk_slides_window "hello world" 4 1) as (cs & Hcs & _); [lia|].
  exists cs. split; [exact Hcs|].
  injection Hcs as <-. split; reflexivity.
Defined.

(** ** The retriever of the specification *)

Lemma StronglySorted_lookup_2 {A} (R : relation A) (l : list A) :
  (∀ i j x y, (i < j)%nat → l !! i = Some x → l !! j = Some y → R x y) →
  StronglySorted R l.
Proof.
  induction l as [|a l IH]; intros H; constructor.
  - apply IH. intros i j x y Hij Hx Hy. apply (H (S i) (S j)); [lia|done..].
  - apply Forall_forall. intros y [j Hj]%list_elem_of_lookup.
    apply (H 0%nat (S j)); [lia|done..].
Qed.

Lemma StronglySorted_lookup_1 {A} (R : relation A) (l : list A) i j x y :
  StronglySorted R l → (i < j)%nat → l !! i = Some x → l !! j = Some y → R x y.
Proof.
  intros Hs. revert i j. induction Hs as [|a l Hs IH Ha]; intros i j Hij Hx Hy.
  { by rewrite lookup_nil in Hx. }
  destruct j as [|j]; [lia|]. simpl in Hy. destruct i as [|i]; simpl in Hx.
  - injection Hx as ->. rewrite Forall_forall in Ha. apply Ha.
    by eapply list_elem_of_lookup_2.
  - apply (IH i j); [lia|done..].
Qed.

Section RetrieverFacts.
Context {Vec Score : Type}.
Context (similarity : Vec → Vec → Score) (leb : Score → Score → bool).
Hypothesis leb_total : ∀ a b, leb a b = true ∨ leb b a = true.
Hypothesis leb_trans : ∀ a b c, leb a b = true → leb b c = true → leb a c = true.

Lemma insert_desc_perm (x : CoreSpec.scored) (l : list CoreSpec.scored) :
  CoreSpec.insert_desc leb x l ≡ₚ x :: l.
Proof.
  induction l as [|y l IH]; simpl; [done|].
  destruct (leb (CoreSpec.score y) (CoreSpec.score x)); [done|].
  rewrite IH. apply Permutation_swap.
Qed.

Lemma sort_desc_perm (l : list CoreSpec.scored) : CoreSpec.sort_desc leb l ≡ₚ l.
Proof.
  induction l as [|x l IH]; simpl; [done|].
  by rewrite insert_desc_perm, IH.
Qed.

Lemma insert_desc_sorted (x : CoreSpec.scored) (l : list CoreSpec.scored) :
  StronglySorted (before leb) l → Forall (row_lt x) l →
  StronglySorted (before leb) (CoreSpec.insert_desc leb x l).
Proof.
  induction l as [|y l IH]; simpl; intros Hs Hx.
  { repeat constructor. }
  apply StronglySorted_cons in Hs as [Hy Hs].
  apply Forall_cons in Hx as [Hxy Hx].
  destruct (leb (CoreSpec.score y) (CoreSpec.score x)) eqn:Hle.
  - apply StronglySorted_cons. split; [|by apply StronglySorted_cons].
    apply Forall_cons. split; [by split|].
    rewrite Forall_forall in Hy, Hx |- *. intros z Hz. split.
    + destruct (Hy z Hz) as [Hzy _]. by eapply leb_trans.
    + intros _. by apply Hx.
  - apply StronglySorted_cons. split; [|by apply IH].
    rewrite Forall_forall in Hy |- *. intros z Hz.
    rewrite insert_desc_perm in Hz. apply elem_of_cons in Hz as [->|Hz]; [|by apply Hy].
    split; [|congruence].
    destruct (leb_total (CoreSpec.score x) (CoreSpec.score y)); congruence.
Qed.

Lemma sort_desc_sorted (l : list CoreSpec.scored) :
  StronglySorted row_lt l → StronglySorted (before leb) (CoreSpec.sort_desc leb l).
Proof.
  induction l as [|x l IH]; simpl; intros Hs.
  { constructor. }
  apply StronglySorted_cons in Hs as [Hx Hs].
  apply insert_desc_sorted; [by apply IH|].
  rewrite Forall_forall in Hx |- *. intros z Hz. apply Hx.
  by rewrite sort_desc_perm in Hz.
Qed.

Lemma score_all_lookup (index : list (CoreSpec.metadata * Vec)) (q : Vec)
    (i : nat) (x : CoreSpec.scored) :
  CoreSpec.score_all similarity index q !! i = Some x ↔
  ∃ m v, index !! i = Some (m, v)
         ∧ x = CoreSpec.Scored i m (similarity q v).
Proof.
  unfold CoreSpec.score_all. rewrite list_lookup_imap.
  destruct (index !! i) as [[m v]|]; simpl; split.
  - intros [= <-]. eauto.
  - intros (m' & v' & [= <- <-] & ->). done.
  - done.
  - by intros (? & ? & ? & _).
Qed.

Lemma score_all_rows (index : list (CoreSpec.metadata * Vec)) (q : Vec) :
  CoreSpec.row <$> CoreSpec.score_all similarity index q = seq 0 (length index).
Proof.
  apply list_eq. intros i. rewrite list_lookup_fmap.
  destruct (decide (i < length index)%nat) as [Hi|Hi].
  - rewrite lookup_seq_lt by done.
    destruct (lookup_lt_is_Some_2 index i Hi) as [[m v] Hmv].
    assert (CoreSpec.score_all similarity index q !! i
            = Some (CoreSpec.Scored i m (similarity q v))) as ->
      by (apply score_all_lookup; eauto).
    done.
  - rewrite lookup_seq_ge by lia.
    destruct (CoreSpec.score_all similarity index q !! i) as [x|] eqn:Hx; [|done].
    apply score_all_lookup in Hx as (m & v & Hmv & _).
    apply lookup_lt_Some in Hmv. lia.
Qed.

Lemma score_all_sorted_rows (index : list (CoreSpec.metadata * Vec)) (q : Vec) :
  StronglySorted row_lt (CoreSpec.score_all similarity index q).
Proof.
  apply StronglySorted_lookup_2. intros i j x y Hij Hx Hy.
  apply score_all_lookup in Hx as (? & ? & _ & ->).
  apply score_all_lookup in Hy as (? & ? & _ & ->).
  exact Hij.
Qed.

(** Without a loaded index retrieval fails with [EmptyIndexError]; it does not
    return an empty list. *)
Lemma retrieve_without_index (query_vector : Vec) (top_k : positive) :
  CoreSpec.retrieve similarity leb None query_vector top_k
  = Err CoreSpec.EmptyIndexError.
Proof. reflexivity. Qed.

(** C2: on a loaded index, with scores ordered by a total and transitive
    [leb], [retrieve] returns [min(top_k, size)] pairs of chunk metadata and
    score, one for each of as many distinct rows of the index, each with the
    similarity of the query to that row's vector; scores never increase along
    the result, rows of equal score come in the order of the index, and no
    row left out scores higher than a returned one.  A [top_k] above the
    size gives the whole index, not an error. *)
Theorem retrieve_top_k_in_order (index : list (CoreSpec.metadata * Vec))
    (query_vector : Vec) (top_k : positive) :
  ∃ hits rows,
    CoreSpec.retrieve similarity leb (Some index) query_vector top_k = Ok hits
    ∧ length hits = Nat.min (Pos.to_nat top_k) (length index)
    ∧ length rows = length hits
    ∧ NoDup rows
    ∧ (∀ i h r, hits !! i = Some h → rows !! i = Some r →
         ∃ v, index !! r = Some (h.1, v) ∧ h.2 = similarity query_vector v)
    ∧ (∀ i j hi hj ri rj, (i < j)%nat →
         hits !! i = Some hi → hits !! j = Some hj →
         rows !! i = Some ri → rows !! j = Some rj →
         leb hj.2 hi.2 = true ∧ (leb hi.2 hj.2 = true → (ri < rj)%nat))
    ∧ (∀ r m v h, index !! r = Some (m, v) → r ∉ rows → h ∈ hits →
         leb (similarity query_vector v) h.2 = true).
Proof.
  unfold CoreSpec.retrieve.
  set (all := CoreSpec.score_all similarity index query_vector).
  set (sorted := CoreSpec.sort_desc leb all).
  set (k := Nat.min (Pos.to_nat top_k) (length index)).
  assert (sorted ≡ₚ all) as Hperm by apply sort_desc_perm.
  assert (StronglySorted (before leb) sorted) as Hsorted
    by apply sort_desc_sorted, score_all_sorted_rows.
  assert (length sorted = length index) as Hlen.
  { rewrite Hperm. unfold all, CoreSpec.score_all. apply length_imap. }
  assert (∀ x, x ∈ sorted →
            ∃ m v, index !! CoreSpec.row x = Some (m, v)
                   ∧ x = CoreSpec.Scored (CoreSpec.row x) m (similarity query_vector v))
    as Hfrom.
  { intros x Hx. rewrite Hperm in Hx. apply list_elem_of_lookup in Hx as [i Hi].
    apply score_all_lookup in Hi as (m & v & Hmv & ->). simpl. eauto. }
  exists ((fun h => (CoreSpec.meta h, CoreSpec.score h)) <$> take k sorted),
         (CoreSpec.row <$> take k sorted).
  split_and!.
  - done.
  - rewrite length_fmap, length_take. lia.
  - by rewrite !length_fmap.
  - assert (NoDup (CoreSpec.row <$> sorted)) as Hnd.
    { rewrite Hperm. unfold all. rewrite score_all_rows. apply NoDup_seq. }
    apply (sublist_NoDup _ _ Hnd). rewrite fmap_take. apply sublist_take.
  - intros i h r Hh Hr. rewrite list_lookup_fmap in Hh. rewrite list_lookup_fmap in Hr.
    destruct (take k sorted !! i) as [x|] eqn:Hx; simplify_eq/=.
    assert (x ∈ sorted) as Hin.
    { apply lookup_take_Some in Hx as [Hx _]. by eapply list_elem_of_lookup_2. }
    destruct (Hfrom x Hin) as (m & v & Hmv & Hxeq).
    exists v. rewrite Hxeq. simpl. by rewrite Hxeq in Hmv.
  - intros i j hi hj ri rj Hij Hhi Hhj Hri Hrj.
    rewrite list_lookup_fmap in Hhi. rewrite list_lookup_fmap in Hhj.
    rewrite list_lookup_fmap in Hri. rewrite list_lookup_fmap in Hrj.
    destruct (take k sorted !! i) as [x|] eqn:Hx; simplify_eq/=.
    destruct (take k sorted !! j) as [y|] eqn:Hy; simplify_eq/=.
    apply lookup_take_Some in Hx as [Hx _]. apply lookup_take_Some in Hy as [Hy _].
    exact (StronglySorted_lookup_1 _ _ _ _ _ _ Hsorted Hij Hx Hy).
  - intros r m v h Hr Hout Hh.
    apply list_elem_of_fmap in Hh as (x & -> & Hx). simpl.
    set (y := CoreSpec.Scored r m (similarity query_vector v)).
    assert (y ∈ drop k sorted) as Hy.
    { assert (y ∈ take k sorted ++ drop k sorted) as Hy.
      { rewrite take_drop, Hperm. apply list_elem_of_lookup. exists r.
        apply score_all_lookup. eauto. }
      apply elem_of_app in Hy as [Hy|Hy]; [|done].
      destruct Hout. apply list_elem_of_fmap. by exists y. }
    rewrite <- (take_drop k sorted) in Hsorted.
    by destruct (StronglySorted_app_1_elem_of _ _ _ _ _ Hsorted Hx Hy) as [Hle _].
Qed.

End RetrieverFacts.

Lemma retrieve_top_k_in_order_witness :
  ∃ hits (rows : list nat),
    CoreSpec.retrieve (fun q v => q * v) Z.leb
      (Some [ (CoreSpec.Metadata "a.txt" 0 4 "alfa", 1);
              (CoreSpec.Metadata "a.txt" 3 7 "beta", 3);
              (CoreSpec.Metadata "b.txt" 0 4 "gamm", 3) ]) 2 5%positive
    = Ok hits
    ∧ length hits = 3%nat
    ∧ length rows = length hits
    ∧ NoDup rows.
Proof.
  destruct (retrieve_top_k_in_order (fun q v => q * v) Z.leb
              ltac:(intros a b; rewrite !Z.leb_le; lia)
              ltac:(intros a b c; rewrite !Z.leb_le; lia)
              [ (CoreSpec.Metadata "a.txt" 0 4 "alfa", 1);
                (CoreSpec.Metadata "a.txt" 3 7 "beta", 3);
                (CoreSpec.Metadata "b.txt" 0 4 "gamm", 3) ] 2 5%positive)
    as (hits & rows & Hr & Hl & Hrl & Hnd & _).
  exists hits, rows. split_and!; [exact Hr|exact Hl|exact Hrl|exact Hnd].
Defined.

(** * Further properties of the routes *)

(** ** The query route: validation of the payload *)

Section QueryValidation.
Context {W Hit Stats Time : Type} (core : Core W Hit Stats Time).

(** A failure of the query route is always an [HTTPException]: status 400
    for a missing question, status 500 for everything else. *)
Theorem query_failure_is_http (payload : gmap string json) (w w' : W)
    (tr0 tr : list (event Hit Stats)) (f : failure) :
  api_query (traced core) payload (w, tr0) = (Err f, (w', tr)) →
  f = HTTPException 400 "'question' is required"
  ∨ ∃ detail, f = HTTPException 500 detail.
Proof.
  intros H. apply query_runs in H as (evs & _ & Hrun).
  inversion Hrun; subst; eauto.
Qed.

(** A question that is any false value, not only null and the empty string
    (so also [false], 0, 0.0, an empty list or object), is refused like a
    missing one, before any call. *)
Theorem query_false_question_refused (payload : gmap string json) (v : json)
    (w : W) (tr : list (event Hit Stats)) :
  payload !! "question" = Some v → truthy v = false →
  api_query (traced core) payload (w, tr)
  = (Err (HTTPException 400 "'question' is required"), (w, tr)).
Proof.
  intros Hv Hf.
  unfold api_query, try_except, mbind, M_bind, bind, lift, call, get_or.
  by rewrite Hv, Hf.
Qed.

(** A question that is a true value but not a string (a number, [true], a
    non-empty list or object) is not refused with 400: the missing [strip]
    method surfaces as status 500, before any call. *)
Theorem query_non_string_question_is_500 (payload : gmap string json) (v : json)
    (w : W) (tr : list (event Hit Stats)) :
  payload !! "question" = Some v → truthy v = true → (∀ s, v ≠ JStr s) →
  api_query (traced core) payload (w, tr)
  = (Err (HTTPException 500
            ("'" +:+ type_name v +:+ "' object has no attribute 'strip'")),
     (w, tr)).
Proof.
  intros Hv Ht Hs.
  unfold api_query, try_except, mbind, M_bind, bind, lift, call, get_or.
  rewrite Hv, Ht. destruct v; try done. by destruct (Hs s).
Qed.

(** A [top_k] that [int] rejects (a non-empty list or object, NaN, an
    infinity, a string that is no number) makes the query fail with status
    500 and [int]'s message, before retrieval is called. *)
Theorem query_bad_top_k_is_500 (payload : gmap string json) (q : string)
    (v : json) (e : exn) (w : W) (tr : list (event Hit Stats)) :
  asked payload q →
  payload !! "top_k" = Some v → truthy v = true →
  py_int (int_of_str core) v = Err e →
  api_query (traced core) payload (w, tr)
  = (Err (HTTPException 500 (exn_str e)), (w, tr)).
Proof.
  intros [Hq Hne] Hv Ht He. apply String.eqb_neq in Hne.
  unfold api_query, try_except, mbind, M_bind, bind, lift, call.
  rewrite Hq, Hne. unfold get_or at 1. simpl. rewrite Hv, Ht. simpl.
  by rewrite He.
Qed.

(** What [int] makes of a [top_k] that is no integer: [true] counts as 1 and
    a finite float is cut towards zero (so 0.5 asks for 0 chunks, not for the
    default); that number is what retrieval is called with. *)
Theorem query_top_k_converted (payload : gmap string json) (w w' : W)
    (tr : list (event Hit Stats)) out (q : string) :
  asked payload q →
  api_query (traced core) payload (w, []) = (out, (w', tr)) →
  (payload !! "top_k" = Some (JBool true) →
   ∃ r rest, tr = ERetrieve q 1 r :: rest)
  ∧ (∀ x, payload !! "top_k" = Some (JFloat (FFin x)) → Qnum x ≠ 0 →
     ∃ r rest, tr = ERetrieve q (Z.quot (Qnum x) (Z.pos (Qden x))) r :: rest).
Proof.
  intros Hq H. apply query_runs in H as (evs & -> & Hrun).
  assert (∀ k, (payload !! "top_k" = Some (JBool true) →
                wanted core payload k → k = 1)
             ∧ (∀ x, payload !! "top_k" = Some (JFloat (FFin x)) → Qnum x ≠ 0 →
                wanted core payload k → k = Z.quot (Qnum x) (Z.pos (Qden x))))
    as Hk.
  { intros k. unfold wanted, get_or. split.
    - intros ->. simpl. congruence.
    - intros x -> Hx. simpl. destruct (Z.eqb_spec (Qnum x) 0); simpl; congruence. }
  assert (∀ e, py_int (int_of_str core)
                 (get_or payload "top_k" (JInt (TOP_K_DEFAULT core))) = Err e →
               payload !! "top_k" ≠ Some (JBool true)
               ∧ ∀ x, payload !! "top_k" ≠ Some (JFloat (FFin x))) as He.
  { intros e. unfold get_or. split.
    - intros Hm. rewrite Hm in *. simplify_eq/=.
    - intros x Hm. rewrite Hm in *. simpl in *.
      destruct (Z.eqb_spec (Qnum x) 0); simplify_eq/=. }
  simpl.
  inversion Hrun as [Hb|e Hb|q' e Hq' Hi|q' k e Hq' Hk'|q' k hits e Hq' Hk'
                     |q' k hits ctx e Hq' Hk'|q' k hits ctx ra e Hq' Hk'
                     |q' ctx resp Hq' Hk']; subst;
    try (destruct Hq as [Hq ?]; congruence);
    try (pose proof (asked_unique _ _ _ Hq Hq') as <-).
  { destruct (He _ Hi) as [Hnb Hnf].
    split; [intros Hm|intros x Hm Hx]; exfalso; [by apply Hnb|by apply (Hnf x)]. }
  all: match goal with Hw : wanted _ _ ?k |- _ =>
      destruct (Hk k) as [Hb Hf];
      split; [intros Hm; rewrite (Hb Hm Hw)|intros x Hm Hx; rewrite (Hf x Hm Hx Hw)];
      eauto
    end.
Qed.

End QueryValidation.

(** ** The query route: the order of its calls *)

Lemma lstrip_suffix (l : list ascii) : Py.lstrip l `suffix_of` l.
Proof.
  induction l as [|c l IH]; simpl; [done|].
  destruct (Py.is_space c); [by apply suffix_cons_r|done].
Qed.

Lemma lstrip_head (l : list ascii) (c : ascii) (rest : list ascii) :
  Py.lstrip l = c :: rest → Py.is_space c = false.
Proof.
  induction l as [|x l IH]; simpl; [done|].
  destruct (Py.is_space x) eqn:Hx; [done|]. by intros [= <- _].
Qed.

Lemma strip_trimmed (s : string) : trimmed (Py.strip s).
Proof.
  unfold trimmed, Py.strip, Py.rstrip. rewrite chars_of_chars.
  set (l := Py.lstrip (Py.chars s)).
  destruct (lstrip_suffix (rev l)) as [k Hk].
  assert (l = rev (Py.lstrip (rev l)) ++ rev k) as Hl.
  { rewrite <- rev_app_distr, <- Hk. by rewrite rev_involutive. }
  split.
  - intros c rest Hc. rewrite Hc in Hl. simpl in Hl.
    by apply (lstrip_head (Py.chars s) c (rest ++ rev k)).
  - intros init c Hc. apply (f_equal (@rev ascii)) in Hc.
    rewrite rev_involutive, rev_app_distr in Hc. simpl in Hc.
    by apply (lstrip_head _ _ _ Hc).
Qed.

Section QueryOrder.
Context {W Hit Stats Time : Type} (core : Core W Hit Stats Time).

(** The query route stops at the first call that raises: a recorded call
    that raised is the last one recorded, and the query fails with status
    500 and its message.  This holds for retrieval, for the context
    assembly and for both generation calls. *)
Theorem query_stops_at_first_error (payload : gmap string json) (w w' : W)
    (tr : list (event Hit Stats)) out (i : nat) (ev : event Hit Stats) (e : exn) :
  api_query (traced core) payload (w, []) = (out, (w', tr)) →
  tr !! i = Some ev → event_error ev = Some e →
  S i = length tr ∧ out = Err (HTTPException 500 (exn_str e)).
Proof.
  intros H Hi He. apply query_runs in H as (evs & -> & Hrun). simpl in Hi.
  inversion Hrun; subst;
    repeat (destruct i as [|i]; simplify_eq/=); done.
Qed.

(** The generation collaborator is only called after retrieval and context
    assembly have returned, and only with one of two prompts: the RAG system
    prompt with the question and that context, or the bare system prompt
    with the question alone. *)
Theorem generation_only_after_context (payload : gmap string json) (w w' : W)
    (tr : list (event Hit Stats)) out (sys user : string) r :
  api_query (traced core) payload (w, []) = (out, (w', tr)) →
  EOllamaChat sys user r ∈ tr →
  ∃ q k hits ctx,
    asked payload q
    ∧ take 2 tr = [ERetrieve q k (Ok hits); EBuildContext hits (Ok ctx)]
    ∧ ((sys = SYSTEM_PROMPT_RAG core ∧ user = rag_prompt q ctx)
       ∨ (sys = SYSTEM_PROMPT_BARE core ∧ user = q)).
Proof.
  intros H Hin. apply query_runs in H as (evs & -> & Hrun). simpl in Hin.
  inversion Hrun; subst;
    repeat (apply elem_of_cons in Hin as [Hin|Hin]; simplify_eq/=);
    try (by apply elem_of_nil in Hin);
    eexists _, _, _, _; (split; [eassumption|]); (split; [reflexivity|]); eauto.
Qed.

(** The question handed to retrieval is never empty and never starts or
    ends with white space. *)
Theorem retrieval_question_is_trimmed (payload : gmap string json) (w w' : W)
    (tr : list (event Hit Stats)) out (q : string) (k : Z) r :
  api_query (traced core) payload (w, []) = (out, (w', tr)) →
  ERetrieve q k r ∈ tr →
  q ≠ "" ∧ trimmed q.
Proof.
  intros H Hin. apply query_runs in H as (evs & -> & Hrun). simpl in Hin.
  assert (asked payload q) as Hq.
  { inversion Hrun; subst;
      repeat (apply elem_of_cons in Hin as [Hin|Hin]; simplify_eq/=);
      try (by apply elem_of_nil in Hin); done. }
  split; [by destruct Hq|].
  apply asked_inv in Hq as (s & _ & ->). apply strip_trimmed.
Qed.

(** An answer reports what was done: its chunks are the hits retrieval
    returned for the reported [top_k], and they are the hits the context
    was assembled from. *)
Theorem query_answer_reports_retrieval (payload : gmap string json) (w w' : W)
    (tr : list (event Hit Stats)) (resp : query_response Hit) :
  api_query (traced core) payload (w, []) = (Ok resp, (w', tr)) →
  ∃ q ctx,
    asked payload q ∧ wanted core payload (used_top_k resp)
    ∧ take 2 tr = [ ERetrieve q (used_top_k resp) (Ok (rag_chunks resp));
                    EBuildContext (rag_chunks resp) (Ok ctx) ].
Proof.
  intros H. apply query_runs in H as (evs & -> & Hrun).
  inversion Hrun; subst. eauto.
Qed.

End QueryOrder.

(** ** The upload route: what ends up in the files *)

Section UploadState.
Context {W Hit Stats Time : Type} (core : Core W Hit Stats Time).


Lemma upload_loop_raises (files : list upload_file) (saved0 : list saved_file)
    (st st' : FS.state) f :
  upload_loop core files saved0 st = (Err f, st') → ∃ e, f = Raised e.
Proof.
  revert saved0 st. induction files as [|uf files IH]; intros saved0 st; simpl.
  { done. }
  destruct (accepted core uf); simpl; [|by apply IH].
  unfold mbind, M_bind, bind.
  destruct (FS.write_file _ _ st) as [[[]|f1] st1] eqn:Hw.
  - apply IH.
  - intros [= <- <-]. by eapply write_file_raises.
Qed.

(** After an upload that answers, every path holds the content of the last
    accepted file written to it (so of two uploaded files with the same
    basename the later one is kept, though both are listed as saved), and
    every other path is as before. *)
Theorem upload_last_write_wins (files : list upload_file) (st st' : FS.state)
    (resp : upload_response) (p : list string) :
  upload core files st = (Ok resp, st') →
  FS.nodes st' !! p
  = match last (written_to core st p files) with
    | Some uf => Some (FS.File (content uf))
    | None => FS.nodes st !! p
    end.
Proof.
  unfold upload, mbind, M_bind, bind.
  destruct (upload_loop core files [] st) as [[sv|f] st1] eqn:Hloop; [|done].
  intros H. assert (st' = st1) as ->.
  { destruct sv; unfold raise, mret, M_ret, ret in H; simpl in H; congruence. }
  by eapply upload_loop_final.
Qed.

(** The upload route answers status 400 only when no file was accepted, and
    then nothing was written; with an accepted file, a failure is the error
    of the write itself, not an [HTTPException]. *)
Theorem upload_400_means_none_accepted (files : list upload_file)
    (st st' : FS.state) (status : Z) (detail : string) :
  upload core files st = (Err (HTTPException status detail), st') →
  List.filter (accepted core) files = [] ∧ status = 400 ∧ st' = st.
Proof.
  unfold upload, mbind, M_bind, bind.
  destruct (upload_loop core files [] st) as [[sv|f] st1] eqn:Hloop.
  - pose proof (upload_loop_spec _ _ _ _ _ _ Hloop) as (_ & _ & Hsv).
    specialize (Hsv sv eq_refl). simpl in Hsv.
    destruct sv as [|x l]; unfold raise, mret, M_ret, ret; simpl; [|done].
    intros [= <- <- <-].
    assert (List.filter (accepted core) files = []) as Hnone.
    { destruct (List.filter (accepted core) files); [done|]. by simplify_eq/=. }
    split; [done|]. split; [done|].
    by destruct (upload_loop_none _ _ _ _ _ _ Hnone Hloop) as [_ ->].
  - intros [= -> <-]. by apply upload_loop_raises in Hloop as [e ?].
Qed.

End UploadState.

(** ** The upload route: the data directory and the names *)

Lemma rfind_absent (c : ascii) (l : list ascii) : c ∉ l → Py.rfind c l = -1.
Proof.
  induction l as [|x l IH]; simpl; [done|].
  intros [Hx Hl]%not_elem_of_cons. rewrite (IH Hl). simpl.
  destruct (Ascii.eqb_spec x c); congruence.
Qed.

(** The last occurrence is an occurrence. *)
Lemma rfind_found (c : ascii) (l : list ascii) :
  0 ≤ Py.rfind c l →
  Py.slice_from (Py.rfind c l) l = c :: Py.slice_from (Py.rfind c l + 1) l.
Proof.
  unfold Py.slice_from. induction l as [|x l IH]; simpl; [lia|].
  pose proof (rfind_lower_bound c l) as Hlb.
  destruct (Z.leb_spec 0 (Py.rfind c l)) as [Hr|Hr].
  - intros _.
    replace (Z.to_nat (Py.rfind c l + 1)) with (S (Z.to_nat (Py.rfind c l))) by lia.
    replace (Z.to_nat (Py.rfind c l + 1 + 1))
      with (S (Z.to_nat (Py.rfind c l + 1))) by lia.
    simpl. by apply IH.
  - destruct (Ascii.eqb_spec x c) as [->|Hx]; [|lia]. by intros _.
Qed.

Lemma forallb_false_inv {A} (f : A → bool) (l : list A) :
  forallb f l = false → ∃ x, x ∈ l ∧ f x = false.
Proof.
  induction l as [|x l IH]; simpl; [done|].
  destruct (f x) eqn:Hx; simpl.
  - intros (y & Hy & Hf)%IH. exists y. split; [by apply list_elem_of_further|done].
  - intros _. exists x. split; [apply list_elem_of_here|done].
Qed.

Section UploadNames.
Context {W Hit Stats Time : Type} (core : Core W Hit Stats Time).

Lemma upload_loop_no_data_dir (files : list upload_file) (saved0 : list saved_file)
    (st : FS.state) :
  FS.nodes st !! FS.resolve st (DATA_DIR core) = None →
  "" ∉ ALLOWED_EXTS core → List.filter (accepted core) files ≠ [] →
  ∃ e, upload_loop core files saved0 st = (Err (Raised e), st)
       ∧ exn_class e ∈ ["ValueError"; "FileNotFoundError"; "NotADirectoryError";
                        "OSError"].
Proof.
  intros Hd Hreal. revert saved0.
  induction files as [|uf files IH]; intros saved0 Hacc; simpl in *; [done|].
  destruct (accepted core uf) eqn:Ha; simpl; [|by apply IH].
  pose proof (accepted_plain core _ Ha Hreal) as Hplain.
  unfold mbind, M_bind, bind.
  destruct (FS.write_file _ _ st) as [r st1] eqn:Hw.
  destruct (write_file_missing_dir _ _ _ _ _ _ Hplain Hd Hw) as (e & -> & -> & He).
  by exists e.
Qed.

(** The upload route does not make the data directory: when nothing is at
    the path its string names (and the empty extension is not allowed), an
    upload with an accepted file raises the error of the first write,
    [FileNotFoundError] or another error of the operating system or
    [ValueError], and writes nothing. *)
Theorem upload_fails_without_data_dir (files : list upload_file) (st : FS.state) :
  FS.nodes st !! FS.resolve st (DATA_DIR core) = None →
  "" ∉ ALLOWED_EXTS core → List.filter (accepted core) files ≠ [] →
  ∃ e, upload core files st = (Err (Raised e), st)
       ∧ exn_class e ∈ ["ValueError"; "FileNotFoundError"; "NotADirectoryError";
                        "OSError"].
Proof.
  intros Hd Hreal Hacc.
  destruct (upload_loop_no_data_dir files [] st Hd Hreal Hacc) as (e & He & Hc).
  exists e. split; [|done]. unfold upload, mbind, M_bind, bind. by rewrite He.
Qed.

(** An accepted name has a real extension (when the empty extension is not
    allowed): it is a root followed by an extension that starts with a dot
    and holds no further dot, and the root holds a character that is no dot.
    So a name without a dot, or with leading dots only, is never saved. *)
Theorem accepted_name_has_extension (uf : upload_file) :
  accepted core uf = true → "" ∉ ALLOWED_EXTS core →
  ∃ root rest,
    upload_name uf = root +:+ String Py.extsep rest
    ∧ Py.splitext (upload_name uf) = (root, String Py.extsep rest)
    ∧ (Py.extsep ∉ Py.chars rest)
    ∧ ∃ c, c ∈ Py.chars root ∧ c ≠ Py.extsep.
Proof.
  intros [Hne Hext]%accepted_inv Hreal.
  assert (snd (Py.splitext (upload_name uf)) ≠ "") as Hsnd.
  { intros E. apply Hreal. unfold upload_ext in Hext. by rewrite E in Hext. }
  pose proof (basename_no_sep (default "" (filename uf))) as Hsep.
  fold (upload_name uf) in Hsep.
  unfold Py.splitext in *. set (l := Py.chars (upload_name uf)) in *.
  rewrite (rfind_absent _ _ Hsep) in *.
  destruct (Z.ltb_spec (-1) (Py.rfind Py.extsep l)) as [Hdot|Hdot]; [|done].
  change (-1 + 1) with 0 in *. unfold Py.slice_from at 1 in Hsnd.
  unfold Py.slice_from at 1. simpl drop in *. rewrite Z.sub_0_r in *.
  destruct (forallb _ _) eqn:Hall; [done|]. clear Hsnd.
  assert (0 ≤ Py.rfind Py.extsep l) as Hfound by lia.
  pose proof (rfind_found _ _ Hfound) as Hcut.
  pose proof (rfind_suffix_free Py.extsep l) as Hfree.
  exists (Py.of_chars (Py.slice_to (Py.rfind Py.extsep l) l)),
         (Py.of_chars (Py.slice_from (Py.rfind Py.extsep l + 1) l)).
  assert (Py.of_chars (Py.slice_from (Py.rfind Py.extsep l) l)
          = String Py.extsep (Py.of_chars (Py.slice_from (Py.rfind Py.extsep l + 1) l)))
    as Hext_eq by by rewrite Hcut.
  split_and!.
  - rewrite <- Hext_eq. rewrite <- (of_chars_chars (upload_name uf)) at 1.
    fold l. rewrite <- (of_chars_chars (_ +:+ _)), chars_app, !chars_of_chars.
    unfold Py.slice_to, Py.slice_from. by rewrite take_drop.
  - by rewrite Hext_eq.
  - by rewrite chars_of_chars.
  - rewrite chars_of_chars.
    apply forallb_false_inv in Hall as (c & Hc & Hf).
    exists c. split; [done|]. by apply Ascii.eqb_neq.
Qed.

End UploadNames.

(** ** The clear-data route: what it leaves alone, and its errors *)

Section ClearFacts.
Context {W Hit Stats Time : Type} (core : Core W Hit Stats Time).

(** [clear_data] removes nothing outside the two directories, when they are
    settled: a path that lies in neither of them is as before, or is a
    missing directory on the way to one of them that has been made. *)
Theorem clear_data_keeps_the_rest (st st' : FS.state) (resp : clear_response)
    (q : list string) :
  FS.wf st →
  FS.settled st (DATA_DIR core) → FS.settled st (ARTIFACTS_DIR core) →
  clear_data core st = (Ok resp, st') →
  ¬ FS.resolve st (DATA_DIR core) `prefix_of` q →
  ¬ FS.resolve st (ARTIFACTS_DIR core) `prefix_of` q →
  FS.nodes st' !! q = FS.nodes st !! q
  ∨ ((q `prefix_of` FS.resolve st (DATA_DIR core)
      ∨ q `prefix_of` FS.resolve st (ARTIFACTS_DIR core))
     ∧ FS.nodes st !! q = None ∧ FS.nodes st' !! q = Some FS.Dir).
Proof.
  intros Hwf Hsd Hsa
    (b1 & st1 & st2 & b2 & st3 & Hb1 & Hrm1 & Hmk1 & Hb2 & Hrm2 & Hmk2 & _)
    %clear_data_steps Hd Ha.
  destruct (clear_one_dir _ _ _ _ _ Hwf Hsd Hb1 Hrm1 Hmk1) as (Hwf2 & Hcwd2 & _).
  pose proof (settled_cwd st st2 _ Hcwd2 Hsa) as Hsa2.
  rewrite <- (resolve_cwd st st2 _ Hcwd2) in Ha.
  destruct (clear_one_dir_frame _ _ _ _ _ q Hwf Hsd Hb1 Hrm1 Hmk1 Hd)
    as [E1|(Hq1 & Hn1 & Hd1)];
    destruct (clear_one_dir_frame _ _ _ _ _ q Hwf2 Hsa2 Hb2 Hrm2 Hmk2 Ha)
    as [E2|(Hq2 & Hn2 & Hd2)].
  - left. congruence.
  - right. rewrite (resolve_cwd st st2) in Hq2 by done.
    split_and!; [by right|congruence|done].
  - right. split_and!; [by left|done|congruence].
  - congruence.
Qed.

(** A regular file with the name of the data directory, whose path string
    is plain, makes [clear_data] fail with [FileExistsError], and nothing is
    changed. *)
Theorem clear_data_file_in_the_way (st : FS.state) (c : list Byte.byte) :
  FS.wf st → FS.plain (DATA_DIR core) = true →
  FS.nodes st !! FS.resolve st (DATA_DIR core) = Some (FS.File c) →
  ∃ e, clear_data core st = (Err (Raised e), st)
       ∧ exn_class e = "FileExistsError".
Proof.
  intros Hwf Hplain Hf.
  destruct (makedirs_file _ _ _ Hwf Hplain Hf) as (e & Hmk & He).
  exists e. split; [|done].
  unfold clear_data, mbind, M_bind, bind.
  rewrite (isdir_plain _ _ Hwf Hplain), Hf, bool_decide_eq_false_2 by done.
  simpl. by rewrite Hmk.
Qed.

End ClearFacts.

(** ** The clear-data route: running it again, and after an upload *)

(** A directory named by a plain path string is removed by [rmtree] and
    made again by [makedirs]. *)
Lemma clear_existing_dir (s : string) (st : FS.state) :
  FS.wf st → FS.settled st s →
  FS.nodes st !! FS.resolve st s = Some FS.Dir →
  FS.isdir s st = (Ok true, st)
  ∧ FS.rmtree s st
    = (Ok tt, FS.State (FS.cwd st)
                (filter (fun kv => ¬ FS.resolve st s `prefix_of` kv.1) (FS.nodes st)))
  ∧ FS.makedirs s
      (FS.State (FS.cwd st)
         (filter (fun kv => ¬ FS.resolve st s `prefix_of` kv.1) (FS.nodes st)))
    = (Ok tt,
       FS.State (FS.cwd st)
         (<[FS.resolve st s := FS.Dir]>
            (filter (fun kv => ¬ FS.resolve st s `prefix_of` kv.1) (FS.nodes st)))).
Proof.
  intros Hwf Hset Hd. pose proof Hset as [Hplain Hout].
  pose proof (plain_not_root st _ Hplain) as Hp.
  destruct (exists_last Hp) as (parent & name & Hpn).
  assert (FS.nodes st !! parent = Some FS.Dir) as Hpar.
  { destruct Hwf as [_ Hwf']. eapply Hwf'. by rewrite <- Hpn. }
  pose proof (rmtree_plain _ _ Hwf Hset Hd) as Hrm.
  pose proof (rmtree_wf _ _ _ Hwf Hrm) as Hwf1.
  set (nodes1 := filter (fun kv : list string * FS.node =>
                           ¬ FS.resolve st s `prefix_of` kv.1) (FS.nodes st)) in *.
  set (st1 := FS.State (FS.cwd st) nodes1) in *.
  assert (nodes1 !! parent = Some FS.Dir) as Hpar1.
  { apply map_lookup_filter_Some. split; [done|]. simpl. rewrite Hpn.
    intros Hpre%prefix_length. rewrite length_app in Hpre. simpl in Hpre. lia. }
  assert (nodes1 !! FS.resolve st s = None) as Hgone.
  { apply map_lookup_filter_None. right. intros n _. simpl.
    intros Hn. by apply Hn. }
  assert (FS.resolve st1 s = FS.resolve st s) as Hres by by apply resolve_cwd.
  split_and!.
  - by rewrite (isdir_plain _ _ Hwf Hplain), Hd, bool_decide_eq_true_2.
  - done.
  - rewrite (makedirs_make s st1 parent name); [by rewrite Hres|done..| |done|].
    + by rewrite Hres.
    + by rewrite Hres.
Qed.

(** An empty directory that is removed and made again leaves the files as
    they were. *)
Lemma clear_empty_dir_again (s : string) (st : FS.state) :
  FS.wf st → FS.settled st s →
  FS.empty_dir st (FS.resolve st s) →
  ∃ st1,
    FS.isdir s st = (Ok true, st)
    ∧ FS.rmtree s st = (Ok tt, st1)
    ∧ FS.makedirs s st1 = (Ok tt, st).
Proof.
  intros Hwf Hset [Hd Hempty].
  destruct (clear_existing_dir _ _ Hwf Hset Hd) as (Hb & Hrm & Hmk).
  eexists. split_and!; [done..|]. rewrite Hmk. f_equal.
  assert (<[FS.resolve st s := FS.Dir]>
            (filter (fun kv : list string * FS.node =>
                       ¬ FS.resolve st s `prefix_of` kv.1) (FS.nodes st))
          = FS.nodes st) as ->; [|by destruct st].
  apply map_eq. intros q.
  destruct (decide (FS.resolve st s = q)) as [<-|Hq].
  { by rewrite lookup_insert_eq. }
  rewrite lookup_insert_ne by done.
  destruct (decide (FS.resolve st s `prefix_of` q)) as [Hpre|Hpre].
  - rewrite (Hempty q Hpre) by done.
    apply map_lookup_filter_None. right. intros n _. simpl. tauto.
  - destruct (FS.nodes st !! q) as [n|] eqn:Hn.
    + by apply map_lookup_filter_Some.
    + apply map_lookup_filter_None. by left.
Qed.

Section ClearAgain.
Context {W Hit Stats Time : Type} (core : Core W Hit Stats Time).

(** [clear_data] is idempotent on settled directories of which neither lies
    inside the other: on the files a completed [clear_data] has left, it
    completes again and changes nothing. *)
Theorem clear_data_twice (st st' : FS.state) (resp : clear_response) :
  FS.wf st →
  FS.settled st (DATA_DIR core) → FS.settled st (ARTIFACTS_DIR core) →
  (FS.resolve st (DATA_DIR core) `prefix_of` FS.resolve st (ARTIFACTS_DIR core) →
   FS.resolve st (DATA_DIR core) = FS.resolve st (ARTIFACTS_DIR core)) →
  (FS.resolve st (ARTIFACTS_DIR core) `prefix_of` FS.resolve st (DATA_DIR core) →
   FS.resolve st (ARTIFACTS_DIR core) = FS.resolve st (DATA_DIR core)) →
  clear_data core st = (Ok resp, st') →
  clear_data core st' = (Ok resp, st').
Proof.
  intros Hwf Hsd Hsa Hda Had H.
  destruct (clear_data_outcome core _ _ _ Hwf Hsd Hsa Hda Had H)
    as (Hwf' & Hcwd & -> & Hd & Ha).
  rewrite <- (resolve_cwd st st' _ Hcwd) in Hd.
  rewrite <- (resolve_cwd st st' _ Hcwd) in Ha.
  pose proof (settled_cwd st st' _ Hcwd Hsd) as Hsd'.
  pose proof (settled_cwd st st' _ Hcwd Hsa) as Hsa'.
  destruct (clear_empty_dir_again _ _ Hwf' Hsd' Hd) as (st1 & Hb1 & Hrm1 & Hmk1).
  destruct (clear_empty_dir_again _ _ Hwf' Hsa' Ha) as (st2 & Hb2 & Hrm2 & Hmk2).
  unfold clear_data, mbind, M_bind, bind.
  by rewrite Hb1, Hrm1, Hmk1, Hb2, Hrm2, Hmk2.
Qed.


(** [clear_data] completes when both directories are there and settled,
    and neither lies inside the other. *)
Theorem clear_data_completes (st : FS.state) :
  FS.wf st →
  FS.settled st (DATA_DIR core) → FS.settled st (ARTIFACTS_DIR core) →
  FS.nodes st !! FS.resolve st (DATA_DIR core) = Some FS.Dir →
  FS.nodes st !! FS.resolve st (ARTIFACTS_DIR core) = Some FS.Dir →
  (FS.resolve st (DATA_DIR core) `prefix_of` FS.resolve st (ARTIFACTS_DIR core) →
   FS.resolve st (DATA_DIR core) = FS.resolve st (ARTIFACTS_DIR core)) →
  (FS.resolve st (ARTIFACTS_DIR core) `prefix_of` FS.resolve st (DATA_DIR core) →
   FS.resolve st (ARTIFACTS_DIR core) = FS.resolve st (DATA_DIR core)) →
  ∃ st', clear_data core st = (Ok (ClearResponse true), st').
Proof.
  intros Hwf Hsd Hsa Hd Ha Hda Had.
  destruct (clear_existing_dir _ _ Hwf Hsd Hd) as (Hb1 & Hrm1 & Hmk1).
  destruct (clear_one_dir _ _ _ _ true Hwf Hsd Hb1 Hrm1 Hmk1)
    as (Hwf2 & Hcwd2 & [Hd2 _] & Hfr).
  set (st2 := FS.State (FS.cwd st) (<[_ := _]> _)) in *.
  pose proof (settled_cwd st st2 _ Hcwd2 Hsa) as Hsa2.
  assert (FS.resolve st2 (ARTIFACTS_DIR core) = FS.resolve st (ARTIFACTS_DIR core))
    as Hres by by apply resolve_cwd.
  assert (FS.nodes st2 !! FS.resolve st2 (ARTIFACTS_DIR core) = Some FS.Dir) as Ha2.
  { rewrite Hres.
    destruct (decide (FS.resolve st (DATA_DIR core)
                      = FS.resolve st (ARTIFACTS_DIR core))) as [<-|Hne]; [done|].
    rewrite Hfr; [done|naive_solver..]. }
  destruct (clear_existing_dir _ _ Hwf2 Hsa2 Ha2) as (Hb2 & Hrm2 & Hmk2).
  eexists. unfold clear_data, mbind, M_bind, bind.
  by rewrite Hb1, Hrm1, Hmk1, Hb2, Hrm2, Hmk2.
Qed.

End ClearAgain.

(** ** The route [/] *)

Lemma index_html_plain : plain_name "index.html".
Proof.
  unfold plain_name. split_and!; try done.
  apply (bool_decide_unpack _). reflexivity.
Qed.

(** A path string that [os.stat] accepts holds no NUL and is not too
    long. *)
Lemma stat_Some_inv (st : FS.state) (s : string) :
  is_Some (FS.stat st s) →
  FS.has_nul s = false ∧ FS.byte_length s < FS.PATH_MAX.
Proof.
  unfold FS.stat, FS.lookup, FS.ENOENT, FS.ENAMETOOLONG, FS.os_error.
  destruct (FS.has_nul s); [by intros [? [=]]|].
  destruct (String.eqb s ""); [by intros [? [=]]|].
  destruct (Z.leb_spec FS.PATH_MAX (FS.byte_length s)); [by intros [? [=]]|done].
Qed.

(** The join of a plain path string and a name is plain, if it is not too
    long. *)
Lemma plain_join (dir name : string) :
  FS.plain dir = true → plain_name name → FS.real_name name = true →
  FS.has_nul (Py.join dir name) = false →
  FS.byte_length (Py.join dir name) < FS.PATH_MAX →
  FS.plain (Py.join dir name) = true.
Proof.
  intros Hdir Hname Hreal Hnul Hlen. pose proof Hname as (Hsep & _).
  assert (Py.join dir name = dir +:+ String Py.sep name) as Hj.
  { unfold Py.join. rewrite (startswith_sep_no_sep _ Hsep).
    rewrite (proj2 (String.eqb_neq _ _) (plain_named _ Hdir)).
    destruct (Py.endswith_sep dir) eqn:Hend; [|done].
    apply endswith_sep_last in Hend.
    pose proof (plain_last _ Hdir) as Hl. by rewrite Hend in Hl. }
  unfold FS.plain in *. rewrite Hnul, (proj2 (Z.ltb_lt _ _) Hlen). simpl.
  apply andb_true_iff in Hdir as [_ Hdir].
  rewrite Hj, components_app_sep by done.
  destruct (FS.components dir) as [|c rest]; [done|]. simpl.
  apply andb_true_iff in Hdir as [Hc Hrest].
  rewrite forallb_app, Hrest. simpl. rewrite Hreal. simpl.
  rewrite andb_true_r. destruct (String.eqb c ""); [|done]. by destruct rest.
Qed.

(** Clearing the data does not take the UI away: when the page is there and
    lies neither in the data directory nor in the artifacts directory, it is
    still served after a [clear_data] that completes.  The two directories
    are settled and the path string of the static directory is plain. *)
Theorem index_page_after_clear_data {W Hit Stats Time : Type}
    (core : Core W Hit Stats Time) (static : string) (st st' : FS.state)
    (resp : clear_response) :
  FS.wf st →
  FS.settled st (DATA_DIR core) → FS.settled st (ARTIFACTS_DIR core) →
  FS.plain static = true →
  clear_data core st = (Ok resp, st') →
  ¬ FS.resolve st (DATA_DIR core) `prefix_of` FS.resolve st static ++ ["index.html"] →
  ¬ FS.resolve st (ARTIFACTS_DIR core) `prefix_of` FS.resolve st static ++ ["index.html"] →
  index_page static st = (Ok (FileResponse (Py.join static "index.html")), st) →
  index_page static st' = (Ok (FileResponse (Py.join static "index.html")), st').
Proof.
  intros Hwf Hsd Hsa Hstatic Hclear Hd Ha.
  pose proof Hclear as
    (b1 & st1 & st2 & b2 & st3 & Hb1 & Hrm1 & Hmk1 & Hb2 & Hrm2 & Hmk2 & _)
    %clear_data_steps.
  set (u := FS.resolve st static ++ ["index.html"]) in *.
  destruct (clear_one_dir _ _ _ _ _ Hwf Hsd Hb1 Hrm1 Hmk1) as (Hwf2 & Hcwd2 & _).
  pose proof (settled_cwd st st2 _ Hcwd2 Hsa) as Hsa2.
  destruct (clear_one_dir _ _ _ _ _ Hwf2 Hsa2 Hb2 Hrm2 Hmk2) as (Hwf' & Hcwd4 & _).
  rewrite <- (resolve_cwd st st2 _ Hcwd2) in Ha.
  assert (FS.resolve st' static ++ ["index.html"] = u) as Hu.
  { unfold u. f_equal. apply resolve_cwd. congruence. }
  unfold index_page, mbind, M_bind, bind. unfold FS.path_exists at 1.
  case_bool_decide as Hthere; [|done]. intros _.
  destruct (stat_Some_inv _ _ Hthere) as [Hnul Hlen].
  assert (FS.plain (Py.join static "index.html") = true) as Hplain.
  { apply plain_join; [done|apply index_html_plain|done..]. }
  rewrite (stat_plain _ _ Hwf Hplain) in Hthere.
  rewrite (path_exists_plain _ _ Hwf' Hplain).
  rewrite (resolve_join_plain st static _ index_html_plain) in Hthere.
  rewrite (resolve_join_plain st' static _ index_html_plain).
  rewrite Hu. fold u in Hthere. destruct Hthere as [n Hn].
  assert (FS.nodes st' !! u = Some n) as ->.
  { destruct (clear_one_dir_frame _ _ _ _ _ u Hwf Hsd Hb1 Hrm1 Hmk1 Hd)
      as [E1|(_ & Hn1 & _)]; [|congruence].
    destruct (clear_one_dir_frame _ _ _ _ _ u Hwf2 Hsa2 Hb2 Hrm2 Hmk2 Ha)
      as [E2|(_ & Hn2 & _)]; congruence. }
  by rewrite bool_decide_eq_true_2.
Qed.

(** ** The further properties on the small [core] *)

Lemma query_failure_is_http_witness :
  HTTPException 500 "model server unreachable"
  = HTTPException 400 "'question' is required"
  ∨ ∃ detail, HTTPException 500 "model server unreachable" = HTTPException 500 detail.
Proof.
  eapply (query_failure_is_http
            (Demo.core (Demo.first_k ["alpha"; "beta"]) Demo.down)
            {[ "question" := JStr "hi" ]} 0%nat 2%nat []).
  reflexivity.
Defined.

Lemma query_false_question_refused_witness :
  api_query (traced (Demo.core (Demo.first_k ["alpha"]) Demo.echo))
    {[ "question" := JInt 0 ]} (0%nat, [])
  = (Err (HTTPException 400 "'question' is required"), (0%nat, [])).
Proof.
  apply (query_false_question_refused _ _ (JInt 0)); reflexivity.
Defined.

Lemma query_non_string_question_is_500_witness :
  api_query (traced (Demo.core (Demo.first_k ["alpha"]) Demo.echo))
    {[ "question" := JInt 5 ]} (0%nat, [])
  = (Err (HTTPException 500 "'int' object has no attribute 'strip'"), (0%nat, [])).
Proof.
  apply (query_non_string_question_is_500 _ _ (JInt 5)); [reflexivity..|].
  intros s. discriminate.
Defined.

Lemma query_bad_top_k_is_500_witness :
  ∃ detail,
    api_query (traced (Demo.core (Demo.first_k ["alpha"]) Demo.echo))
      {[ "question" := JStr "hi"; "top_k" := JList [JInt 3] ]} (0%nat, [])
    = (Err (HTTPException 500 detail), (0%nat, [])).
Proof.
  eexists.
  eapply (query_bad_top_k_is_500 _ _ "hi" (JList [JInt 3])).
  - split; [reflexivity|discriminate].
  - reflexivity.
  - reflexivity.
  - reflexivity.
Defined.

Lemma query_top_k_converted_witness :
  ∃ out tr,
    api_query (traced (Demo.core (Demo.first_k ["alpha"; "beta"]) Demo.echo))
      {[ "question" := JStr "hi"; "top_k" := JFloat (FFin (5 # 2)) ]} (0%nat, [])
    = (out, (4%nat, tr))
    ∧ ∃ r rest, tr = ERetrieve "hi" 2 r :: rest.
Proof.
  eexists _, _. split; [reflexivity|].
  refine (proj2 (query_top_k_converted
            (Demo.core (Demo.first_k ["alpha"; "beta"]) Demo.echo)
            {[ "question" := JStr "hi"; "top_k" := JFloat (FFin (5 # 2)) ]}
            0%nat 4%nat _ _ "hi" _ _) (5 # 2)%Q _ _).
  - split; [reflexivity|discriminate].
  - reflexivity.
  - reflexivity.
  - discriminate.
Defined.

Lemma query_stops_at_first_error_witness :
  ∃ out tr,
    api_query (traced (Demo.core (Demo.first_k ["alpha"; "beta"]) Demo.down))
      {[ "question" := JStr "hi" ]} (0%nat, [])
    = (out, (2%nat, tr))
    ∧ 3%nat = length tr
    ∧ out = Err (HTTPException 500 "model server unreachable").
Proof.
  eexists _, _. split; [reflexivity|].
  eapply (query_stops_at_first_error
            (Demo.core (Demo.first_k ["alpha"; "beta"]) Demo.down)
            {[ "question" := JStr "hi" ]} 0%nat 2%nat _ _ 2%nat _
            (Exn "GenerationBackendError" "model server unreachable")).
  - reflexivity.
  - reflexivity.
  - reflexivity.
Defined.

Lemma generation_only_after_context_witness :
  ∃ q k hits ctx,
    asked {[ "question" := JStr " hi " ]} q
    ∧ take 2 [ ERetrieve "hi" 4 (Ok ["alpha"; "beta"]);
               EBuildContext ["alpha"; "beta"] (Ok "alphabeta");
               EOllamaChat "Answer from the context." (rag_prompt "hi" "alphabeta")
                 (Ok ("re: " +:+ rag_prompt "hi" "alphabeta"));
               EOllamaChat "Answer." "hi" (Ok "re: hi") ]
      = [ERetrieve (Hit:=string) (Stats:=nat) q k (Ok hits); EBuildContext hits (Ok ctx)]
    ∧ (("Answer." = "Answer from the context." ∧ "hi" = rag_prompt q ctx)
       ∨ ("Answer." = "Answer." ∧ "hi" = q)).
Proof.
  eapply (generation_only_after_context
            (Demo.core (Demo.first_k ["alpha"; "beta"]) Demo.echo)
            {[ "question" := JStr " hi " ]} 0%nat 4%nat _ _ "Answer." "hi"
            (Ok "re: hi")).
  - reflexivity.
  - do 3 apply list_elem_of_further. apply list_elem_of_here.
Defined.

Lemma retrieval_question_is_trimmed_witness : "hi" ≠ "" ∧ trimmed "hi".
Proof.
  eapply (retrieval_question_is_trimmed
            (Demo.core (Demo.first_k ["alpha"; "beta"]) Demo.echo)
            {[ "question" := JStr "  hi  " ]} 0%nat 4%nat _ _ "hi" 4
            (Ok ["alpha"; "beta"])).
  - reflexivity.
  - apply list_elem_of_here.
Defined.

Lemma query_answer_reports_retrieval_witness :
  ∃ resp tr,
    api_query (traced (Demo.core (Demo.first_k ["alpha"; "beta"]) Demo.echo))
      {[ "question" := JStr "hi"; "top_k" := JInt 1 ]} (0%nat, [])
    = (Ok resp, (4%nat, tr))
    ∧ ∃ q ctx,
        asked {[ "question" := JStr "hi"; "top_k" := JInt 1 ]} q
        ∧ wanted (Demo.core (Demo.first_k ["alpha"; "beta"]) Demo.echo)
            {[ "question" := JStr "hi"; "top_k" := JInt 1 ]} (used_top_k resp)
        ∧ take 2 tr = [ ERetrieve q (used_top_k resp) (Ok (rag_chunks resp));
                        EBuildContext (rag_chunks resp) (Ok ctx) ].
Proof.
  eexists _, _. split; [reflexivity|].
  eapply (query_answer_reports_retrieval
            (Demo.core (Demo.first_k ["alpha"; "beta"]) Demo.echo)
            {[ "question" := JStr "hi"; "top_k" := JInt 1 ]} 0%nat 4%nat).
  reflexivity.
Defined.

Lemma upload_last_write_wins_witness :
  ∃ resp st',
    upload (Demo.core (Demo.first_k []) Demo.echo)
      [ UploadFile (Some "a.txt") [Byte.x68];
        UploadFile (Some "sub/a.txt") [Byte.x69] ] Demo.fs
    = (Ok resp, st')
    ∧ FS.nodes st' !! ["data"; "a.txt"] = Some (FS.File [Byte.x69]).
Proof.
  eexists _, _. split; [reflexivity|].
  eapply (upload_last_write_wins
            (Demo.core (Demo.first_k []) Demo.echo)
            [ UploadFile (Some "a.txt") [Byte.x68];
              UploadFile (Some "sub/a.txt") [Byte.x69] ] Demo.fs _ _
            ["data"; "a.txt"]).
  reflexivity.
Defined.

Lemma upload_400_means_none_accepted_witness :
  List.filter (accepted (Demo.core (Demo.first_k []) Demo.echo))
    [UploadFile (Some "b.exe") []; UploadFile None []] = []
  ∧ 400 = 400 ∧ Demo.fs = Demo.fs.
Proof.
  eapply (upload_400_means_none_accepted
            (Demo.core (Demo.first_k []) Demo.echo)
            [UploadFile (Some "b.exe") []; UploadFile None []] Demo.fs Demo.fs 400).
  reflexivity.
Defined.

Lemma upload_fails_without_data_dir_witness :
  ∃ e,
    upload (Demo.core (Demo.first_k []) Demo.echo)
      [UploadFile (Some "a.txt") [Byte.x68]] Demo.fs_bare
    = (Err (Raised e), Demo.fs_bare)
    ∧ exn_class e ∈ ["ValueError"; "FileNotFoundError"; "NotADirectoryError";
                     "OSError"].
Proof.
  apply (upload_fails_without_data_dir (Demo.core (Demo.first_k []) Demo.echo)).
  - reflexivity.
  - apply (bool_decide_unpack _). reflexivity.
  - discriminate.
Defined.

Lemma accepted_name_has_extension_witness :
  ∃ root rest,
    upload_name (UploadFile (Some "up/notes.v2.TXT") []) = root +:+ String Py.extsep rest
    ∧ Py.splitext (upload_name (UploadFile (Some "up/notes.v2.TXT") []))
      = (root, String Py.extsep rest)
    ∧ (Py.extsep ∉ Py.chars rest)
    ∧ ∃ c, c ∈ Py.chars root ∧ c ≠ Py.extsep.
Proof.
  apply (accepted_name_has_extension (Demo.core (Demo.first_k []) Demo.echo)).
  - reflexivity.
  - apply (bool_decide_unpack _). reflexivity.
Defined.

Lemma clear_data_keeps_the_rest_witness :
  ∃ st',
    clear_data (Demo.core (Demo.first_k []) Demo.echo) Demo.fs_ui
    = (Ok (ClearResponse true), st')
    ∧ (FS.nodes st' !! ["static"; "index.html"]
       = FS.nodes Demo.fs_ui !! ["static"; "index.html"]
       ∨ ((["static"; "index.html"] `prefix_of` ["data"]
           ∨ ["static"; "index.html"] `prefix_of` ["artifacts"])
          ∧ FS.nodes Demo.fs_ui !! ["static"; "index.html"] = None
          ∧ FS.nodes st' !! ["static"; "index.html"] = Some FS.Dir)).
Proof.
  eexists. split; [reflexivity|].
  eapply (clear_data_keeps_the_rest
            (Demo.core (Demo.first_k []) Demo.echo) Demo.fs_ui _ _
            ["static"; "index.html"]).
  - apply wfb_sound. reflexivity.
  - split_and!; [reflexivity..|]. intros [r Hr]. discriminate Hr.
  - split_and!; [reflexivity..|]. intros [r Hr]. discriminate Hr.
  - reflexivity.
  - intros [r Hr]. discriminate Hr.
  - intros [r Hr]. discriminate Hr.
Defined.

Lemma clear_data_file_in_the_way_witness :
  ∃ e,
    clear_data (Demo.core (Demo.first_k []) Demo.echo) Demo.fs_data_file
    = (Err (Raised e), Demo.fs_data_file)
    ∧ exn_class e = "FileExistsError".
Proof.
  apply (clear_data_file_in_the_way (Demo.core (Demo.first_k []) Demo.echo)
           Demo.fs_data_file []).
  - apply wfb_sound. reflexivity.
  - reflexivity.
  - reflexivity.
Defined.

Lemma clear_data_twice_witness :
  ∃ st',
    clear_data (Demo.core (Demo.first_k []) Demo.echo) Demo.fs
    = (Ok (ClearResponse true), st')
    ∧ clear_data (Demo.core (Demo.first_k []) Demo.echo) st'
      = (Ok (ClearResponse true), st').
Proof.
  eexists. split; [reflexivity|].
  eapply (clear_data_twice (Demo.core (Demo.first_k []) Demo.echo) Demo.fs).
  - apply wfb_sound. reflexivity.
  - split_and!; [reflexivity..|]. intros [r Hr]. discriminate Hr.
  - split_and!; [reflexivity..|]. intros [r Hr]. discriminate Hr.
  - intros [r Hr]. discriminate Hr.
  - intros [r Hr]. discriminate Hr.
  - reflexivity.
Defined.


Lemma clear_data_completes_witness :
  ∃ st',
    clear_data (Demo.core (Demo.first_k []) Demo.echo) Demo.fs
    = (Ok (ClearResponse true), st').
Proof.
  apply (clear_data_completes (Demo.core (Demo.first_k []) Demo.echo) Demo.fs).
  - apply wfb_sound. reflexivity.
  - split_and!; [reflexivity..|]. intros [r Hr]. discriminate Hr.
  - split_and!; [reflexivity..|]. intros [r Hr]. discriminate Hr.
  - reflexivity.
  - reflexivity.
  - intros [r Hr]. discriminate Hr.
  - intros [r Hr]. discriminate Hr.
Defined.

Lemma index_page_after_clear_data_witness :
  ∃ st',
    clear_data (Demo.core (Demo.first_k []) Demo.echo) Demo.fs_ui
    = (Ok (ClearResponse true), st')
    ∧ index_page "static" st' = (Ok (FileResponse "static/index.html"), st').
Proof.
  eexists. split; [reflexivity|].
  eapply (index_page_after_clear_data
            (Demo.core (Demo.first_k []) Demo.echo) "static" Demo.fs_ui).
  - apply wfb_sound. reflexivity.
  - split_and!; [reflexivity..|]. intros [r Hr]. discriminate Hr.
  - split_and!; [reflexivity..|]. intros [r Hr]. discriminate Hr.
  - reflexivity.
  - reflexivity.
  - intros [r Hr]. discriminate Hr.
  - intros [r Hr]. discriminate Hr.
  - reflexivity.
Defined.
